(** * chi-httpslog: structured request logging middleware, in Rocq

    A shallow embedding of the Go package [httpslog] (the request logger of
    [src/_example/main.go], second document, and the option set of
    [src/unnamed/part_000]) together with the properties of its status
    classifier, header redactor, entry life cycle and middleware driver.

    Conventions of the embedding:
    - Go [int] and [slog.Level] are [Z]; Go [string] is [string];
    - a Go [map] used as a record of fields is a stdpp [gmap];
    - [http.Header] is the list of its entries in the order the [range]
      loop visits them (Go leaves that order unspecified);
    - pointers ([*RequestLoggerEntry], the backing array of a slice) are
      locations in an explicit store, so that aliasing is visible;
    - [strings.ToLower] is a parameter of the development: the theorems hold
      for every lower-casing function, and the closed examples instantiate
      it with lower-casing of ASCII letters. *)

From stdpp Require Import base decidable option list strings gmap fin_maps pretty.
From Stdlib Require Import ZArith Ascii String Lia.

Local Open Scope Z_scope.
Local Open Scope string_scope.
Local Open Scope list_scope.

(** ** Go strings *)

Module GoStrings.

(** [strings.Join(elems, sep)]. *)
Fixpoint Join (elems : list string) (sep : string) : string :=
  match elems with
  | [] => ""
  | [x] => x
  | x :: rest => x +:+ sep +:+ Join rest sep
  end.

(** Lower-casing of one ASCII letter: what [strings.ToLower] does on a
    byte in ['A'..'Z']; every other byte below 0x80 is left alone. *)
Definition ascii_lower (c : ascii) : ascii :=
  let n := nat_of_ascii c in
  if ((65 <=? n)%nat && (n <=? 90)%nat)%bool then ascii_of_nat (n + 32) else c.

(** [strings.ToLower] on ASCII text. *)
Fixpoint ascii_to_lower (s : string) : string :=
  match s with
  | EmptyString => EmptyString
  | String c rest => String (ascii_lower c) (ascii_to_lower rest)
  end.

(** [fmt.Sprintf("%d", n)]. *)
Definition fmt_d (n : Z) : string := pretty n.

End GoStrings.

Import GoStrings.

(** ** log/slog: levels, attributes, loggers and records *)

Module slog.

(** [type Level int] with its four named constants. *)
Definition Level := Z.
Definition LevelDebug : Level := -4.
Definition LevelInfo : Level := 0.
Definition LevelWarn : Level := 4.
Definition LevelError : Level := 8.

(** A leaf value of a logged field. [FMillis ns] stands for the float
    [float64(ns) / 1000000.0]. *)
Inductive FieldValue :=
| FStr (s : string)
| FInt (n : Z)
| FMillis (ns : Z)
| FStrMap (m : gmap string string).

(** The value of an attribute: a leaf, or a [map[string]interface{}]. *)
Inductive Value :=
| VLeaf (f : FieldValue)
| VFields (m : gmap string FieldValue).

Definition Attr : Type := string * Value.

(** A [*slog.Logger]: the minimum level of its handler and the
    attributes attached with [With]. Loggers are immutable values. *)
Record Logger := mkLogger {
  handlerLevel : Level;
  attrs : list Attr
}.

(** One emitted record. *)
Record Record_ := mkRecord {
  recLevel : Level;
  recMsg : string;
  recAttrs : list Attr
}.

(** [Logger.With(key, value)]. *)
Definition With (l : Logger) (key : string) (v : Value) : Logger :=
  mkLogger (handlerLevel l) (attrs l ++ [(key, v)]).

(** [Logger.log]: the record reaches the sink when the handler is
    enabled for its level. *)
Definition log (l : Logger) (lvl : Level) (msg : string) (out : list Record_)
  : list Record_ :=
  if bool_decide (handlerLevel l <= lvl) then out ++ [mkRecord lvl msg (attrs l)]
  else out.

(** [slog.New(slog.NewJSONHandler(os.Stdout, &HandlerOptions{Level: lvl}))]. *)
Definition New (lvl : Level) : Logger := mkLogger lvl [].

End slog.

(** ** The status classifier *)

(** [statusLevel], main.go 261-274. The [switch] takes the first case that
    holds. *)
Definition statusLevel (status : Z) : slog.Level :=
  if bool_decide (status <= 0) then slog.LevelWarn
  else if bool_decide (status < 400) then slog.LevelInfo
  else if bool_decide (status >= 400 ∧ status < 500) then slog.LevelWarn
  else if bool_decide (status >= 500) then slog.LevelError
  else slog.LevelInfo.

(** [statusLabel], main.go 276-289. *)
Definition statusLabel (status : Z) : string :=
  if bool_decide (status >= 100 ∧ status < 300) then "OK"
  else if bool_decide (status >= 300 ∧ status < 400) then "Redirect"
  else if bool_decide (status >= 400 ∧ status < 500) then "Client Error"
  else if bool_decide (status >= 500) then "Server Error"
  else "Unknown".

(** ** Data model *)

(** Locations of the store: a pointer is the index of its cell. *)
Definition loc := nat.

(** A Go slice of strings: [nil], or a window [off, off+len) onto a backing
    array of the store. Two slices with the same array share its cells. *)
Inductive Slice :=
| SliceNil
| SliceOf (arr : loc) (off len : nat).

(** [type Options struct], part_000 20-28. *)
Record Options := mkOptions {
  LogLevel : string;
  LevelFieldName : string;
  Concise : bool;
  Tags : gmap string string;
  SkipHeaders : Slice;
  TimeFieldFormat : string;
  TimeFieldName : string
}.

(** [time.RFC3339Nano]. *)
Definition RFC3339Nano : string := "2006-01-02T15:04:05.999999999Z07:00".

(** The initial value of the package variable [DefaultOptions],
    part_000 10-18. *)
Definition DefaultOptions0 : Options :=
  mkOptions "info" "level" false ∅ SliceNil RFC3339Nano "timestamp".

(** Values of type [interface{}] that reach this package: panic values and
    the [extra] argument of [Write]. [AnyErrAbortHandler] is the sentinel
    [http.ErrAbortHandler]. *)
Inductive any :=
| AnyString (s : string)
| AnyInt (n : Z)
| AnyError (text : string)
| AnyBytes (b : string)
| AnyErrAbortHandler.

#[global] Instance any_eq_dec : EqDecision any.
Proof. solve_decision. Defined.

(** Bytes of a string, as numbers. *)
Fixpoint bytes_of (s : string) : list N :=
  match s with
  | EmptyString => []
  | String c rest => N_of_ascii c :: bytes_of rest
  end.

(** [fmt.Sprintf("%+v", v)]. *)
Definition fmt_v (v : any) : string :=
  match v with
  | AnyString s => s
  | AnyInt n => fmt_d n
  | AnyError text => text
  | AnyBytes b => "[" +:+ Join (pretty <$> bytes_of b) " " +:+ "]"
  | AnyErrAbortHandler => "net/http: abort Handler"
  end.

(** [http.Header]: its entries, in the order [range] visits them. *)
Definition Header : Type := list (string * list string).

(** [h[k] = vs] on a header. *)
Fixpoint headerSet (h : Header) (k : string) (vs : list string) : Header :=
  match h with
  | [] => [(k, vs)]
  | (k', vs') :: rest =>
      if bool_decide (k' = k) then (k, vs) :: rest
      else (k', vs') :: headerSet rest k vs
  end.

(** [h.Get(k)] for a key [k] already in canonical form: the first value
    stored under [k], or the empty string. *)
Fixpoint headerGet (h : Header) (k : string) : string :=
  match h with
  | [] => ""
  | (k', vs) :: rest =>
      if bool_decide (k' = k) then match vs with v :: _ => v | [] => "" end
      else headerGet rest k
  end.

(** Keys of request-scoped context values. *)
Inductive CtxKey :=
| LogEntryCtxKey
| RequestIDKey
| OtherCtxKey (n : nat).

#[global] Instance CtxKey_eq_dec : EqDecision CtxKey.
Proof. solve_decision. Defined.

(** Values stored in a context: a [*RequestLoggerEntry] (possibly the nil
    pointer), a string, or a value of some other type. *)
Inductive CtxValue :=
| CtxEntry (p : option loc)
| CtxString (s : string)
| CtxOther.

(** A [context.Context]: the chain of [WithValue] bindings, innermost
    first. *)
Definition Context : Type := list (CtxKey * CtxValue).

(** [ctx.Value(key)]: the innermost binding of [key], if any. *)
Fixpoint ctxValue (ctx : Context) (key : CtxKey) : option CtxValue :=
  match ctx with
  | [] => None
  | (k, v) :: rest => if bool_decide (k = key) then Some v else ctxValue rest key
  end.

(** The part of [*http.Request] the package reads. *)
Record Request := mkRequest {
  Method : string;
  Path : string;
  Host : string;
  RequestURI : string;
  TLS : bool;
  RemoteAddr : string;
  Proto : string;
  ReqHeader : Header;
  Ctx : Context
}.

(** [r.WithContext(ctx)]. *)
Definition withCtx (r : Request) (ctx : Context) : Request :=
  mkRequest (Method r) (Path r) (Host r) (RequestURI r) (TLS r) (RemoteAddr r)
            (Proto r) (ReqHeader r) ctx.

(** [type RequestLoggerEntry struct], main.go 153-156. *)
Record RequestLoggerEntry := mkEntry {
  Logger : slog.Logger;
  msg : string
}.

(** ** Response writers (collaborators) *)

(** The response writer handed over by the HTTP server: the header map,
    the status line once sent, and the body sent so far. *)
Record RawWriter := mkRaw {
  rwHeader : Header;
  rwStatus : option Z;
  rwBody : string
}.

(** Modelled from the spec: [newLimitBuffer] is not among the sources. A
    side buffer of fixed capacity that receives a copy of the first bytes
    written to the body; once full, later writes are no longer mirrored. *)
Record LimitBuffer := mkLimitBuffer {
  lbData : string;
  lbLimit : nat
}.

(** Modelled from the spec: [newLimitBuffer(limit)], an empty side buffer
    of capacity [limit]. *)
Definition newLimitBuffer (limit : nat) : LimitBuffer := mkLimitBuffer "" limit.

(** Prefix of a string. *)
Fixpoint str_take (n : nat) (s : string) : string :=
  match n, s with
  | S n', String c rest => String c (str_take n' rest)
  | _, _ => ""
  end.

(** Modelled from the spec: a write to the side buffer mirrors the bytes
    up to the remaining capacity and drops the rest. *)
Definition lbWrite (b : LimitBuffer) (p : string) : LimitBuffer :=
  mkLimitBuffer (lbData b +:+ str_take (lbLimit b - String.length (lbData b)) p)
                (lbLimit b).

(** chi's [basicWriter] behind [middleware.WrapResponseWriter]: the
    recorded code, whether a header was written, the byte count and the
    tee. *)
Record BasicWriter := mkBasic {
  bwCode : Z;
  bwWroteHeader : bool;
  bwBytes : Z;
  bwTee : option LimitBuffer
}.

(** Which writer a handler holds: the server's, or the wrapper. *)
Inductive WriterRef :=
| WRaw
| WWrap.

(** ** The world *)

(** Ghost record of a finalization call on the entry at [p]. *)
Inductive Call :=
| CallWrite (p : loc) (status : Z)
| CallPanic (p : loc) (v : any).

(** Everything a request can read or change. *)
Record World := mkWorld {
  wOptions : Options;
  wDefault : slog.Logger;
  wArrays : list (list string);
  wEntries : list RequestLoggerEntry;
  wStdout : list slog.Record_;
  wStderr : list any;
  wNow : Z;
  wRaw : RawWriter;
  wWrap : option BasicWriter;
  wReqID : string * nat;
  wCalls : list Call
}.

(** Update of [wOptions]: the package variable [DefaultOptions]. *)
Definition set_wOptions (x : Options) (σ : World) : World :=
  mkWorld x (wDefault σ) (wArrays σ) (wEntries σ) (wStdout σ) (wStderr σ)
    (wNow σ) (wRaw σ) (wWrap σ) (wReqID σ) (wCalls σ).

(** Update of [wDefault]: [slog.Default()]. *)
Definition set_wDefault (x : slog.Logger) (σ : World) : World :=
  mkWorld (wOptions σ) x (wArrays σ) (wEntries σ) (wStdout σ) (wStderr σ)
    (wNow σ) (wRaw σ) (wWrap σ) (wReqID σ) (wCalls σ).

(** Update of [wArrays]: backing arrays of [[]string] slices. *)
Definition set_wArrays (x : list (list string)) (σ : World) : World :=
  mkWorld (wOptions σ) (wDefault σ) x (wEntries σ) (wStdout σ) (wStderr σ)
    (wNow σ) (wRaw σ) (wWrap σ) (wReqID σ) (wCalls σ).

(** Update of [wEntries]: cells of [*RequestLoggerEntry] pointers. *)
Definition set_wEntries (x : list RequestLoggerEntry) (σ : World) : World :=
  mkWorld (wOptions σ) (wDefault σ) (wArrays σ) x (wStdout σ) (wStderr σ)
    (wNow σ) (wRaw σ) (wWrap σ) (wReqID σ) (wCalls σ).

(** Update of [wStdout]: records written by the structured sink. *)
Definition set_wStdout (x : list slog.Record_) (σ : World) : World :=
  mkWorld (wOptions σ) (wDefault σ) (wArrays σ) (wEntries σ) x (wStderr σ)
    (wNow σ) (wRaw σ) (wWrap σ) (wReqID σ) (wCalls σ).

(** Update of [wStderr]: panic values dumped by [PrintPrettyStack]. *)
Definition set_wStderr (x : list any) (σ : World) : World :=
  mkWorld (wOptions σ) (wDefault σ) (wArrays σ) (wEntries σ) (wStdout σ) x
    (wNow σ) (wRaw σ) (wWrap σ) (wReqID σ) (wCalls σ).

(** Update of [wNow]: the clock, in nanoseconds. *)
Definition set_wNow (x : Z) (σ : World) : World :=
  mkWorld (wOptions σ) (wDefault σ) (wArrays σ) (wEntries σ) (wStdout σ)
    (wStderr σ) x (wRaw σ) (wWrap σ) (wReqID σ) (wCalls σ).

(** Update of [wRaw]: the response writer of the HTTP server. *)
Definition set_wRaw (x : RawWriter) (σ : World) : World :=
  mkWorld (wOptions σ) (wDefault σ) (wArrays σ) (wEntries σ) (wStdout σ)
    (wStderr σ) (wNow σ) x (wWrap σ) (wReqID σ) (wCalls σ).

(** Update of [wWrap]: the [WrapResponseWriter] around it, once created. *)
Definition set_wWrap (x : option BasicWriter) (σ : World) : World :=
  mkWorld (wOptions σ) (wDefault σ) (wArrays σ) (wEntries σ) (wStdout σ)
    (wStderr σ) (wNow σ) (wRaw σ) x (wReqID σ) (wCalls σ).

(** Update of [wReqID]: prefix and counter of [middleware.RequestID]. *)
Definition set_wReqID (x : string * nat) (σ : World) : World :=
  mkWorld (wOptions σ) (wDefault σ) (wArrays σ) (wEntries σ) (wStdout σ)
    (wStderr σ) (wNow σ) (wRaw σ) (wWrap σ) x (wCalls σ).

(** Update of [wCalls]: ghost: finalization calls made so far. *)
Definition set_wCalls (x : list Call) (σ : World) : World :=
  mkWorld (wOptions σ) (wDefault σ) (wArrays σ) (wEntries σ) (wStdout σ)
    (wStderr σ) (wNow σ) (wRaw σ) (wWrap σ) (wReqID σ) x.

(** ** Computations that may panic *)

(** How a call ends: it returns a value, or it unwinds with a panic value
    and the stack trace the runtime captured for it. *)
Inductive Result (A : Type) :=
| Ret (a : A)
| Panicking (v : any) (trace : string).

Arguments Ret {A} a.
Arguments Panicking {A} v trace.

(** A Go call: a transformer of the world that returns or panics. *)
Definition M (A : Type) : Type := World → Result A * World.

Definition ret {A} (a : A) : M A := λ σ, (Ret a, σ).

Definition bind {A B} (c : M A) (k : A → M B) : M B := λ σ,
  match c σ with
  | (Ret a, σ1) => k a σ1
  | (Panicking v t, σ1) => (Panicking v t, σ1)
  end.

Notation "'do' x <- c ; k" := (bind c (λ x, k))
  (at level 10, x name, c at level 100, k at level 200).
Notation "c ;; k" := (bind c (λ _, k))
  (at level 100, k at level 200, right associativity).

Definition get : M World := λ σ, (Ret σ, σ).
Definition modify (f : World → World) : M unit := λ σ, (Ret tt, f σ).

(** [panic(v)]. *)
Definition panic {A} (v : any) (trace : string) : M A := λ σ, (Panicking v trace, σ).

(** [defer deferred(); body]: the deferred call runs when [body] returns and
    when it panics; the panic of [body] then goes on unwinding, unless the
    deferred call panics itself. *)
Definition defer {A} (body : M A) (deferred : M unit) : M A := λ σ,
  let '(r, σ1) := body σ in
  match deferred σ1 with
  | (Ret _, σ2) => (r, σ2)
  | (Panicking v t, σ2) => (Panicking v t, σ2)
  end.

(** [defer func() { if rvr := recover(); rvr != nil { handler(rvr) } }();
    body]: a panic of [body] is stopped and handed to [handler]. *)
Definition deferRecover (body : M unit) (handler : any → string → M unit) : M unit :=
  λ σ,
  match body σ with
  | (Ret _, σ1) => (Ret tt, σ1)
  | (Panicking v t, σ1) => handler v t σ1
  end.

(** The world a call leaves behind, and how it ended. *)
Definition exec {A} (c : M A) (σ : World) : World := (c σ).2.
Definition outcome {A} (c : M A) (σ : World) : Result A := (c σ).1.

(** An [http.Handler]. *)
Definition HandlerFn : Type := WriterRef → Request → M unit.

(** The elements a slice denotes in a store of arrays. *)
Definition sliceElems (arrays : list (list string)) (s : Slice) : list string :=
  match s with
  | SliceNil => []
  | SliceOf a off len => take len (drop off (default [] (arrays !! a)))
  end.

(** A slice is well formed when its window lies inside its array. *)
Definition sliceOk (arrays : list (list string)) (s : Slice) : Prop :=
  match s with
  | SliceNil => True
  | SliceOf a off len =>
      ∃ cells, arrays !! a = Some cells ∧ (off + len ≤ List.length cells)%nat
  end.

Section Httpslog.

(** [strings.ToLower]. *)
Variable ToLower : string → string.

(** ** The option set (part_000) *)

(** The loop [for i, header := range s { s[i] = strings.ToLower(header) }]
    on the slice with array [a] and offset [off]: [n] iterations are left,
    the next index is [i]. Each one reads cell [off+i] and writes it back
    lower-cased, in the array itself. *)
Fixpoint lowerRange (a : loc) (off i n : nat) (arrays : list (list string))
  : list (list string) :=
  match n with
  | O => arrays
  | S n' =>
      let cells := default [] (arrays !! a) in
      match cells !! (off + i)%nat with
      | Some header =>
          lowerRange a off (S i) n'
            (<[a := <[(off + i)%nat := ToLower header]> cells]> arrays)
      | None => arrays
      end
  end.

(** The [switch strings.ToLower(opts.LogLevel)] of [Configure]. *)
Definition parseLevel (name : string) : slog.Level :=
  let l := ToLower name in
  if bool_decide (l = "debug") then slog.LevelDebug
  else if bool_decide (l = "info") then slog.LevelInfo
  else if bool_decide (l = "warn") then slog.LevelWarn
  else if bool_decide (l = "error") then slog.LevelError
  else slog.LevelInfo.

(** The value of the local [opts] when [Configure] reaches
    [DefaultOptions = opts]: the four empty strings defaulted; the slice
    header, the flag and the tags as passed. *)
Definition defaulted (opts : Options) : Options :=
  mkOptions
    (if bool_decide (LogLevel opts = "") then "info" else LogLevel opts)
    (if bool_decide (LevelFieldName opts = "") then "level" else LevelFieldName opts)
    (Concise opts)
    (Tags opts)
    (SkipHeaders opts)
    (if bool_decide (TimeFieldFormat opts = "") then RFC3339Nano else TimeFieldFormat opts)
    (if bool_decide (TimeFieldName opts = "") then "timestamp" else TimeFieldName opts).

(** [Configure], part_000 30-71. *)
Definition Configure (opts : Options) : M unit :=
  let opts' := defaulted opts in
  modify (λ σ,
    match SkipHeaders opts' with
    | SliceNil => σ
    | SliceOf a off len => set_wArrays (lowerRange a off 0 len (wArrays σ)) σ
    end) ;;
  modify (set_wOptions opts') ;;
  modify (set_wDefault (slog.New (parseLevel (LogLevel opts')))).

(** [NewLogger], main.go 73-86. *)
Definition NewLogger (serviceName : string) (opts : list Options) : M slog.Logger :=
  (do σ <- get;
   match opts with
   | o :: _ => Configure o
   | [] => Configure (wOptions σ)
   end) ;;
  do σ <- get;
  let logger := slog.With (wDefault σ) "service"
                  (slog.VLeaf (slog.FStr (ToLower serviceName))) in
  if bool_decide (0 < size (Tags (wOptions σ)))%nat
  then ret (slog.With logger "tags" (slog.VLeaf (slog.FStrMap (Tags (wOptions σ)))))
  else ret logger.

(** ** The header redactor *)

(** The loop over [DefaultOptions.SkipHeaders] at the end of the body of
    [headerLogField]: the first element equal to [k] masks the value. *)
Fixpoint maskIfListed (skips : list string) (k : string)
  (headerField : gmap string string) : gmap string string :=
  match skips with
  | [] => headerField
  | skip :: rest =>
      if bool_decide (k = skip) then <[k := "***"]> headerField
      else maskIfListed rest k headerField
  end.

(** The names masked whatever the configuration says. *)
Definition builtinMasked (k : string) : bool :=
  bool_decide (k = "authorization") || bool_decide (k = "cookie")
  || bool_decide (k = "set-cookie").

(** One iteration of the loop of [headerLogField] on the entry [(k, v)]. *)
Definition headerStep (skips : list string) (headerField : gmap string string)
  (kv : string * list string) : gmap string string :=
  let k := ToLower kv.1 in
  match kv.2 with
  | [] => headerField
  | v0 :: rest =>
      let stored :=
        match rest with
        | [] => <[k := v0]> headerField
        | _ :: _ => <[k := "[" +:+ Join kv.2 "], [" +:+ "]"]> headerField
        end in
      let masked := if builtinMasked k then <[k := "***"]> stored else stored in
      maskIfListed skips k masked
  end.

(** [headerLogField], main.go 235-259, for the redaction list [skips] read
    from [DefaultOptions.SkipHeaders]. *)
Definition headerLogField (skips : list string) (header : Header)
  : gmap string string :=
  foldl (headerStep skips) ∅ header.

(** The redaction list in force in a world. *)
Definition skipList (σ : World) : list string :=
  sliceElems (wArrays σ) (SkipHeaders (wOptions σ)).

(** ** Request fields *)

(** [middleware.GetReqID]. *)
Definition GetReqID (ctx : Context) : string :=
  match ctxValue ctx RequestIDKey with
  | Some (CtxString reqID) => reqID
  | _ => ""
  end.

(** [requestLogFields], main.go 204-233. *)
Definition requestLogFields (skips : list string) (r : Request) (concise : bool)
  : gmap string slog.FieldValue :=
  let scheme := if TLS r then "https" else "http" in
  let requestURL := scheme +:+ "://" +:+ Host r +:+ RequestURI r in
  let f0 : gmap string slog.FieldValue :=
    <["proto" := slog.FStr (Proto r)]>
    (<["remoteIP" := slog.FStr (RemoteAddr r)]>
    (<["requestPath" := slog.FStr (Path r)]>
    (<["requestMethod" := slog.FStr (Method r)]>
    (<["requestURL" := slog.FStr requestURL]> ∅)))) in
  let f1 :=
    if bool_decide (GetReqID (Ctx r) ≠ "")
    then <["requestID" := slog.FStr (GetReqID (Ctx r))]> f0 else f0 in
  if concise then f1
  else
    let f2 := <["scheme" := slog.FStr scheme]> f1 in
    if bool_decide (0 < List.length (ReqHeader r))%nat
    then <["header" := slog.FStrMap (headerLogField skips (ReqHeader r))]> f2
    else f2.

(** ** The request logger entry *)

(** A nil pointer is dereferenced. *)
Definition nilDeref {A} : M A :=
  panic (AnyError "runtime error: invalid memory address or nil pointer dereference") "".

(** Reading and writing the cell of an entry pointer. *)
Definition loadEntry (p : loc) : M RequestLoggerEntry :=
  do σ <- get;
  match wEntries σ !! p with
  | Some e => ret e
  | None => nilDeref
  end.

Definition storeEntry (p : loc) (e : RequestLoggerEntry) : M unit :=
  modify (λ σ, set_wEntries (<[p := e]> (wEntries σ)) σ).

(** [&RequestLoggerEntry{...}]: a fresh cell. *)
Definition allocEntry (e : RequestLoggerEntry) : M loc :=
  do σ <- get;
  modify (set_wEntries (wEntries σ ++ [e])) ;;
  ret (List.length (wEntries σ)).

(** [logger.Log(lvl, msg)] on the structured sink. *)
Definition emit (l : slog.Logger) (lvl : slog.Level) (m : string) : M unit :=
  modify (λ σ, set_wStdout (slog.log l lvl m (wStdout σ)) σ).

(** Ghost: note a finalization call. *)
Definition noteCall (c : Call) : M unit :=
  modify (λ σ, set_wCalls (wCalls σ ++ [c]) σ).

(** [requestLogger.NewLogEntry], main.go 143-151. *)
Definition NewLogEntry (l : slog.Logger) (r : Request) : M loc :=
  do σ <- get;
  let m := "Request: " +:+ Method r +:+ " " +:+ Path r in
  let logger := slog.With l "httpRequest"
                  (slog.VFields (requestLogFields (skipList σ) r true)) in
  do entry <- allocEntry (mkEntry logger "");
  (if negb (Concise (wOptions σ))
   then emit (slog.With logger "httpRequest"
                (slog.VFields (requestLogFields (skipList σ) r (Concise (wOptions σ)))))
             slog.LevelInfo m
   else ret tt) ;;
  ret entry.
(** The message of the end record, main.go 159-162. *)
Definition responseMsg (status : Z) (entryMsg : string) : string :=
  let m := "Response: " +:+ fmt_d status +:+ " " +:+ statusLabel status in
  if bool_decide (entryMsg ≠ "") then m +:+ " - " +:+ entryMsg else m.

(** The map [responseLog] built by [Write], main.go 164-178. *)
Definition responseLog (concise : bool) (skips : list string) (status bytes : Z)
  (header : Header) (elapsed : Z) (extra : any) : gmap string slog.FieldValue :=
  let m0 : gmap string slog.FieldValue :=
    <["elapsed" := slog.FMillis elapsed]>
    (<["bytes" := slog.FInt bytes]>
    (<["status" := slog.FInt status]> ∅)) in
  if negb concise then
    let m1 :=
      if bool_decide (status >= 400)
      then <["body" := slog.FStr (match extra with AnyBytes b => b | _ => "" end)]> m0
      else m0 in
    if bool_decide (0 < List.length header)%nat
    then <["header" := slog.FStrMap (headerLogField skips header)]> m1
    else m1
  else m0.

(** [RequestLoggerEntry.Write], main.go 158-189. The [switch] compares the
    level with the cases in order; the case for [LevelInfo] is empty. *)
Definition Write (p : loc) (status bytes : Z) (header : Header) (elapsed : Z)
  (extra : any) : M unit :=
  noteCall (CallWrite p status) ;;
  do e <- loadEntry p;
  do σ <- get;
  let m := responseMsg status (msg e) in
  let fields := responseLog (Concise (wOptions σ)) (skipList σ) status bytes
                  header elapsed extra in
  let logger := slog.With (Logger e) "httpResponse" (slog.VFields fields) in
  let lvl := statusLevel status in
  if bool_decide (lvl = slog.LevelError) then emit logger slog.LevelError m
  else if bool_decide (lvl = slog.LevelWarn) then emit logger slog.LevelWarn m
  else if bool_decide (lvl = slog.LevelInfo) then ret tt
  else emit logger slog.LevelInfo m.

(** [middleware.PrintPrettyStack]: the dump on standard error. *)
Definition PrintPrettyStack (v : any) : M unit :=
  modify (λ σ, set_wStderr (wStderr σ ++ [v]) σ).

(** [RequestLoggerEntry.Panic], main.go 191-202. *)
Definition Panic (p : loc) (v : any) (stack : string) : M unit :=
  noteCall (CallPanic p v) ;;
  do e <- loadEntry p;
  let stacktrace := stack in
  storeEntry p
    (mkEntry (slog.With (slog.With (Logger e) "stacktrace"
                           (slog.VLeaf (slog.FStr stacktrace)))
                "panic" (slog.VLeaf (slog.FStr (fmt_v v))))
             (fmt_v v)) ;;
  PrintPrettyStack v.

(** [LogEntry], main.go 291-298. *)
Definition LogEntry (ctx : Context) : M slog.Logger :=
  match ctxValue ctx LogEntryCtxKey with
  | Some (CtxEntry (Some p)) => do e <- loadEntry p; ret (Logger e)
  | _ => do σ <- get; ret (wDefault σ)
  end.

(** [LogEntrySetField], main.go 300-304. The type assertion also succeeds
    on a nil pointer, which the assignment then dereferences. *)
Definition LogEntrySetField (ctx : Context) (key value : string) : M unit :=
  match ctxValue ctx LogEntryCtxKey with
  | Some (CtxEntry (Some p)) =>
      do e <- loadEntry p;
      storeEntry p (mkEntry (slog.With (Logger e) key (slog.VLeaf (slog.FStr value)))
                            (msg e))
  | Some (CtxEntry None) => nilDeref
  | _ => ret tt
  end.

(** The key slog gives to an argument of [With] that comes without one. *)
Definition badKey : string := "!BADKEY".

(** [LogEntrySetFields], main.go 306-310. [With] receives the map as its
    only argument; an argument that is neither a string nor an attribute
    becomes the value of one attribute under [badKey]. *)
Definition LogEntrySetFields (ctx : Context) (fields : gmap string slog.FieldValue)
  : M unit :=
  match ctxValue ctx LogEntryCtxKey with
  | Some (CtxEntry (Some p)) =>
      do e <- loadEntry p;
      storeEntry p (mkEntry (slog.With (Logger e) badKey (slog.VFields fields))
                            (msg e))
  | Some (CtxEntry None) => nilDeref
  | _ => ret tt
  end.

(** ** Collaborators: net/http and chi's middleware *)

(** Informational codes, which do not end the header phase. *)
Definition informational (code : Z) : bool :=
  bool_decide (code >= 100 ∧ code <= 199 ∧ code ≠ 101).

(** [WriteHeader] of the server's writer: an invalid code panics, the
    first final code is the one sent. *)
Definition rawWriteHeader (code : Z) : M unit :=
  if bool_decide (code < 100 ∨ code > 999)
  then panic (AnyString ("invalid WriteHeader code " +:+ fmt_d code)) ""
  else modify (λ σ,
    match rwStatus (wRaw σ) with
    | Some _ => σ
    | None =>
        if informational code then σ
        else set_wRaw (mkRaw (rwHeader (wRaw σ)) (Some code) (rwBody (wRaw σ))) σ
    end).

(** [Write] of the server's writer. *)
Definition rawWrite (b : string) : M unit :=
  modify (λ σ,
    let st := match rwStatus (wRaw σ) with Some c => c | None => 200 end in
    set_wRaw (mkRaw (rwHeader (wRaw σ)) (Some st) (rwBody (wRaw σ) +:+ b)) σ).

(** [middleware.NewWrapResponseWriter(w, protoMajor)] followed by
    [ww.Tee(buf)]: a wrapper with nothing recorded yet, which forwards to
    the writer of the server. *)
Definition NewWrapResponseWriter (buf : LimitBuffer) : M unit :=
  modify (set_wWrap (Some (mkBasic 0 false 0 (Some buf)))).

(** The wrapper currently installed. *)
Definition theWrap : M BasicWriter :=
  do σ <- get;
  match wWrap σ with
  | Some b => ret b
  | None => nilDeref
  end.

(** [basicWriter.WriteHeader]. *)
Definition wrapWriteHeader (code : Z) : M unit :=
  do b <- theWrap;
  if informational code then rawWriteHeader code
  else if bwWroteHeader b then ret tt
  else modify (set_wWrap (Some (mkBasic code true (bwBytes b) (bwTee b)))) ;;
       rawWriteHeader code.

(** [basicWriter.Write]. *)
Definition wrapWrite (buf : string) : M unit :=
  (do b <- theWrap;
   if bwWroteHeader b then ret tt else wrapWriteHeader 200) ;;
  rawWrite buf ;;
  do b <- theWrap;
  modify (set_wWrap (Some (mkBasic (bwCode b) (bwWroteHeader b)
                             (bwBytes b + Z.of_nat (String.length buf))
                             ((λ t, lbWrite t buf) <$> bwTee b)))).
(** [w.WriteHeader(code)] and [w.Write(b)] through a writer reference. *)
Definition WriteHeader (w : WriterRef) (code : Z) : M unit :=
  match w with
  | WRaw => rawWriteHeader code
  | WWrap => wrapWriteHeader code
  end.

Definition WriteBody (w : WriterRef) (b : string) : M unit :=
  match w with
  | WRaw => rawWrite b
  | WWrap => wrapWrite b
  end.

(** [ioutil.ReadAll(buf)] on the tee of the wrapper: the buffered bytes are
    returned and the buffer is left empty. *)
Definition readAllTee : M string :=
  do b <- theWrap;
  match bwTee b with
  | Some t =>
      modify (set_wWrap (Some (mkBasic (bwCode b) (bwWroteHeader b) (bwBytes b)
                                 (Some (mkLimitBuffer "" (lbLimit t)))))) ;;
      ret (lbData t)
  | None => nilDeref
  end.

(** [middleware.WithLogEntry(r, entry)]. *)
Definition WithLogEntry (r : Request) (entry : loc) : Request :=
  withCtx r ((LogEntryCtxKey, CtxEntry (Some entry)) :: Ctx r).

(** [middleware.GetLogEntry(r)]: the entry stored in the context as an
    interface value, which is not nil even when it holds a nil pointer. *)
Definition GetLogEntry (r : Request) : option (option loc) :=
  match ctxValue (Ctx r) LogEntryCtxKey with
  | Some (CtxEntry p) => Some p
  | _ => None
  end.

(** [fmt.Sprintf("%06d", n)]. *)
Definition fmt_06d (n : nat) : string :=
  let digits := pretty n in
  String.concat "" (replicate (6 - String.length digits) "0") +:+ digits.

(** [middleware.RequestID]: the identifier comes from the request header
    or from the process-wide counter. *)
Definition RequestID (next : HandlerFn) : HandlerFn := λ w r,
  do requestID <-
    (if bool_decide (headerGet (ReqHeader r) "X-Request-Id" = "")
     then
       modify (λ σ, set_wReqID ((wReqID σ).1, S (wReqID σ).2) σ) ;;
       do σ <- get;
       ret ((wReqID σ).1 +:+ "-" +:+ fmt_06d (wReqID σ).2)
     else ret (headerGet (ReqHeader r) "X-Request-Id"));
  next w (withCtx r ((RequestIDKey, CtxString requestID) :: Ctx r)).

(** The deferred function of [middleware.Recoverer], once [recover()] has
    returned the panic value [rvr]: [http.ErrAbortHandler] is raised again;
    for any other value the log entry of the request, if there is one,
    gets its [Panic] call, and status 500 is written unless the connection
    is being upgraded. *)
Definition recovered (w : WriterRef) (r : Request) (rvr : any) (trace : string)
  : M unit :=
  match rvr with
  | AnyErrAbortHandler => panic rvr trace
  | _ =>
      match GetLogEntry r with
      | Some (Some p) => Panic p rvr trace
      | Some None => nilDeref
      | None => PrintPrettyStack rvr
      end ;;
      if bool_decide (headerGet (ReqHeader r) "Connection" ≠ "Upgrade")
      then WriteHeader w 500
      else ret tt
  end.

(** [middleware.Recoverer]. *)
Definition Recoverer (next : HandlerFn) : HandlerFn := λ w r,
  deferRecover (next w r) (recovered w r).

(** ** The middleware driver *)

(** The set [skipPaths] built by [Handler], main.go 99-104. *)
Definition skipSet (optSkipPaths : list (list string)) : gset string :=
  match optSkipPaths with
  | [] => ∅
  | paths :: _ => list_to_set paths
  end.

(** The test at main.go 109-115. *)
Definition skipped (optSkipPaths : list (list string)) (r : Request) : bool :=
  bool_decide (0 < size (skipSet optSkipPaths))%nat
  && bool_decide (Path r ∈ skipSet optSkipPaths).

(** The deferred function of [Handler], main.go 125-131. *)
Definition finalizer (entry : loc) (t1 : Z) : M unit :=
  do ww <- theWrap;
  do respBody <-
    (if bool_decide (bwCode ww >= 400) then readAllTee else ret "");
  do ww <- theWrap;
  do σ <- get;
  Write entry (bwCode ww) (bwBytes ww) (rwHeader (wRaw σ)) (wNow σ - t1)
        (AnyBytes respBody).

(** [Handler], main.go 96-137. *)
Definition Handler (logger : slog.Logger) (optSkipPaths : list (list string))
  (next : HandlerFn) : HandlerFn := λ w r,
  if skipped optSkipPaths r then next w r
  else
    do entry <- NewLogEntry logger r;
    NewWrapResponseWriter (newLimitBuffer 512) ;;
    do σ <- get;
    let t1 := wNow σ in
    defer (next WWrap (WithLogEntry r entry)) (finalizer entry t1).

(** [RequestLogger], main.go 88-94: the chain of [RequestID], [Handler]
    and [Recoverer] around [next]. *)
Definition RequestLogger (logger : slog.Logger) (skipPaths : list (list string))
  (next : HandlerFn) : HandlerFn :=
  RequestID (Handler logger skipPaths (Recoverer next)).

(** ** Downstream handlers *)

(** What a downstream handler does with the exchange, step by step. *)
Inductive Action :=
| ActSetHeader (k : string) (vs : list string)
| ActWriteHeader (code : Z)
| ActWrite (body : string)
| ActLog (lvl : slog.Level) (m : string)
| ActSetField (key value : string)
| ActSleep (ns : Z)
| ActPanic (v : any) (trace : string).

(** One step: [w.Header()[k] = vs], [w.WriteHeader(code)], [w.Write(body)],
    [LogEntry(r.Context()).Log(lvl, m)], [LogEntrySetField(r.Context(),
    key, value)], time passing, [panic(v)]. *)
Definition runAction (a : Action) (w : WriterRef) (r : Request) : M unit :=
  match a with
  | ActSetHeader k vs =>
      modify (λ σ, set_wRaw (mkRaw (headerSet (rwHeader (wRaw σ)) k vs)
                               (rwStatus (wRaw σ)) (rwBody (wRaw σ))) σ)
  | ActWriteHeader code => WriteHeader w code
  | ActWrite body => WriteBody w body
  | ActLog lvl m => do l <- LogEntry (Ctx r); emit l lvl m
  | ActSetField key value => LogEntrySetField (Ctx r) key value
  | ActSleep ns => modify (λ σ, set_wNow (wNow σ + ns) σ)
  | ActPanic v trace => panic v trace
  end.

(** A handler that performs the steps in order. *)
Fixpoint runScript (acts : list Action) (w : WriterRef) (r : Request) : M unit :=
  match acts with
  | [] => ret tt
  | a :: rest => runAction a w r ;; runScript rest w r
  end.

End Httpslog.

(** ** Closed instances *)

(** A request for [path], otherwise plain. *)
Definition requestFor (path : string) : Request :=
  mkRequest "GET" path "localhost:5555" path false "127.0.0.1:40000" "HTTP/1.1" [] [].

(** The world at process start, before any [Configure]. *)
Definition world0 : World :=
  mkWorld DefaultOptions0 (slog.New slog.LevelInfo) [] [] [] [] 0
          (mkRaw [] None "") None ("host/abc", O) [].

(** The options of the example program, main.go 14-20. *)
Definition exampleOptions : Options :=
  mkOptions "" "" true ∅ SliceNil "" "".

(** Verbose options, with no redaction list. *)
Definition verboseOptions : Options :=
  mkOptions "" "" false ∅ SliceNil "" "".

(** The world after [NewLogger("httpslog-example", opts)], and the logger
    it returns. *)
Definition configured (opts : Options) : World :=
  exec (NewLogger ascii_to_lower "httpslog-example" [opts]) world0.

Definition loggerOf (opts : Options) : slog.Logger :=
  match outcome (NewLogger ascii_to_lower "httpslog-example" [opts]) world0 with
  | Ret l => l
  | Panicking _ _ => slog.New slog.LevelInfo
  end.

(** One exchange through [RequestLogger(logger, []string{"/ping"})], as the
    example program installs it, with the handler given by [acts]. *)
Definition serve (opts : Options) (path : string) (acts : list Action) : World :=
  exec (RequestLogger ascii_to_lower (loggerOf opts) [["/ping"]] (runScript acts)
          WRaw (requestFor path))
       (configured opts).

(** Messages of the records on the structured sink. *)
Definition messages (σ : World) : list string := slog.recMsg <$> wStdout σ.

(** ** Properties: vocabulary *)

(** How a non-empty list of values is displayed: one value verbatim,
    several values bracketed and separated by commas. *)
Definition display (v : list string) : string :=
  match v with
  | [x] => x
  | _ => "[" +:+ Join v "], [" +:+ "]"
  end.

(** A lower-cased name is masked when it is built in or listed. *)
Definition isMasked (skips : list string) (k : string) : bool :=
  builtinMasked k || bool_decide (k ∈ skips).

(** What the redactor stores for the values [v] under the lower-cased
    name [k]. *)
Definition rendered (skips : list string) (k : string) (v : list string) : string :=
  if isMasked skips k then "***" else display v.

(** The header collection formed from a redacted mapping: every name with
    its one value. *)
Definition headerOfMap (m : gmap string string) : Header :=
  (λ kv, (kv.1, [kv.2])) <$> map_to_list m.

(** A step that cannot panic by itself. *)
Definition quiet (a : Action) : Prop :=
  match a with
  | ActPanic _ _ => False
  | ActWriteHeader code => 100 <= code <= 999
  | _ => True
  end.

(** The claim that a request sees one finalization or the other: the calls
    are one [Write] and no [Panic], or one [Panic] and no [Write]. *)
Definition eitherOr (calls : list Call) : Prop :=
  (∃ p status, calls = [CallWrite p status]) ∨ (∃ p v, calls = [CallPanic p v]).

(** The world after the ghost note of a call. *)
Definition noted (c : Call) (σ : World) : World :=
  set_wCalls (wCalls σ ++ [c]) σ.

(** The logger [Write] emits through. *)
Definition endLogger (ToLower : string → string) (σ : World)
  (e : RequestLoggerEntry) (status bytes : Z) (header : Header) (elapsed : Z)
  (extra : any) : slog.Logger :=
  slog.With (Logger e) "httpResponse"
    (slog.VFields (responseLog ToLower (Concise (wOptions σ)) (skipList σ)
                     status bytes header elapsed extra)).

(** The entry after [Panic(v, stack)]. *)
Definition annotated (e : RequestLoggerEntry) (v : any) (stack : string)
  : RequestLoggerEntry :=
  mkEntry (slog.With (slog.With (Logger e) "stacktrace"
                        (slog.VLeaf (slog.FStr stack)))
             "panic" (slog.VLeaf (slog.FStr (fmt_v v))))
          (fmt_v v).

(** The logger [NewLogEntry] gives the entry of a request. *)
Definition entryLogger (ToLower : string → string) (l : slog.Logger) (σ : World)
  (r : Request) : slog.Logger :=
  slog.With l "httpRequest"
    (slog.VFields (requestLogFields ToLower (skipList σ) r true)).

(** The world once the entry of a request is allocated. *)
Definition withEntry (ToLower : string → string) (l : slog.Logger) (r : Request)
  (σ : World) : World :=
  set_wEntries (wEntries σ ++ [mkEntry (entryLogger ToLower l σ r) ""]) σ.

(** A world in which the exchange of the entry at [p] is under way: the
    entry has its cell and the wrapper is installed with its tee. *)
Definition ready (p : loc) (σ : World) : Prop :=
  is_Some (wEntries σ !! p) ∧
  ∃ b t, wWrap σ = Some b ∧ bwTee b = Some t.

(** The context of the request carries the entry at [p]. *)
Definition carries (r : Request) (p : loc) : Prop :=
  ctxValue (Ctx r) LogEntryCtxKey = Some (CtxEntry (Some p)).

(** The world in which [Handler] calls the downstream handler: the entry
    of the request is created and the wrapper installed. *)
Definition prepared (ToLower : string → string) (l : slog.Logger) (r : Request)
  (σ : World) : World :=
  set_wWrap (Some (mkBasic 0 false 0 (Some (newLimitBuffer 512))))
    (exec (NewLogEntry ToLower l r) σ).

(** The message the end record would carry if the formatted panic value
    were always appended. *)
Definition panicMessage (status : Z) (v : any) : string :=
  "Response: " +:+ fmt_d status +:+ " " +:+ statusLabel status +:+ " - " +:+ fmt_v v.

(** A world with one entry, whose logger is the default one. *)
Definition worldWithEntry : World :=
  set_wEntries [mkEntry (slog.New slog.LevelInfo) ""] world0.

(** A world in which the caller holds the array of header names
    [Authorization, X-Api-Key, Other]. *)
Definition worldWithNames : World :=
  set_wArrays [["Authorization"; "X-Api-Key"; "Other"]] world0.

(** Options whose redaction list is the first two cells of that array. *)
Definition redactingOptions : Options :=
  mkOptions "WARN" "" false ∅ (SliceOf 0%nat 0%nat 2%nat) "" "".

(** The response headers of the scenario of the spec. *)
Definition cookieHeader : Header :=
  [("Set-Cookie", ["abc=123"]); ("Accept", ["text/html"; "text/plain"]);
   ("X-Empty", [])].

(** The logger [NewLogger] returns for a service name, in the world its
    call to [Configure] leaves. *)
Definition namedLogger (ToLower : string → string) (serviceName : string)
  (σ : World) : slog.Logger :=
  let logger := slog.With (wDefault σ) "service"
                  (slog.VLeaf (slog.FStr (ToLower serviceName))) in
  if bool_decide (0 < size (Tags (wOptions σ)))%nat
  then slog.With logger "tags" (slog.VLeaf (slog.FStrMap (Tags (wOptions σ))))
  else logger.

(** A context carries the entry at [p]. *)
Definition carriesCtx (ctx : Context) (p : loc) : Prop :=
  ctxValue ctx LogEntryCtxKey = Some (CtxEntry (Some p)).

(** The context of the request holds no entry pointer. *)
Definition noEntry (r : Request) : Prop :=
  ∀ p, ctxValue (Ctx r) LogEntryCtxKey ≠ Some (CtxEntry p).

(** What a handler that runs without an entry leaves alone: finalization
    calls, entries, wrapper and default logger; the records it adds carry
    the attributes of the default logger only. *)
Definition unlogged (σ σ' : World) : Prop :=
  wCalls σ' = wCalls σ ∧ wEntries σ' = wEntries σ ∧ wWrap σ' = wWrap σ ∧
  wDefault σ' = wDefault σ ∧
  ∃ new, wStdout σ' = wStdout σ ++ new ∧
         Forall (λ rec, slog.recAttrs rec = slog.attrs (wDefault σ)) new.

(** Entries other than the one at [p] are as before, and none was added
    or removed. *)
Definition othersKept (p : loc) (σ σ' : World) : Prop :=
  List.length (wEntries σ') = List.length (wEntries σ) ∧
  ∀ q, q ≠ p → wEntries σ' !! q = wEntries σ !! q.

(** A context that carries the entry of [worldWithEntry]. *)
Definition entryCtx : Context := [(LogEntryCtxKey, CtxEntry (Some 0%nat))].

(** A request with credentials. *)
Definition authRequest : Request :=
  mkRequest "GET" "/" "localhost:5555" "/" false "127.0.0.1:40000" "HTTP/1.1"
            [("Authorization", ["Bearer abc"])] [].

Section Properties.

(** [strings.ToLower], any lower-casing function. *)
Variable ToLower : string → string.

(** ** The status classifier *)

(** C3. The classifier is total and follows the table: a status at most 0
    is warn and Unknown; a status in (0, 400) is info, with label OK from
    100 to 299 and Redirect from 300 to 399; a status in [400, 500) is warn
    and Client Error; a status of 500 or more is error and Server Error;
    every status below 100, outside the label bands, is Unknown. *)
Theorem classifier_table (s : Z) :
  (s <= 0 → statusLevel s = slog.LevelWarn ∧ statusLabel s = "Unknown") ∧
  (0 < s < 400 →
     statusLevel s = slog.LevelInfo ∧
     (100 <= s < 300 → statusLabel s = "OK") ∧
     (300 <= s < 400 → statusLabel s = "Redirect")) ∧
  (400 <= s < 500 →
     statusLevel s = slog.LevelWarn ∧ statusLabel s = "Client Error") ∧
  (500 <= s →
     statusLevel s = slog.LevelError ∧ statusLabel s = "Server Error") ∧
  (s < 100 → statusLabel s = "Unknown").
Proof.
  unfold statusLevel, statusLabel.
  repeat split; intros; repeat case_bool_decide; try reflexivity; lia.
Qed.
(** ** The header redactor *)

Lemma headerLogField_snoc skips (h : Header) kv :
  headerLogField ToLower skips (h ++ [kv])
  = headerStep ToLower skips (headerLogField ToLower skips h) kv.
Proof.
  unfold headerLogField. generalize (∅ : gmap string string).
  induction h as [|e h IH]; intros acc; simpl; [reflexivity | apply IH].
Qed.

Lemma maskIfListed_lookup skips k (m : gmap string string) k' :
  maskIfListed skips k m !! k'
  = if decide (k = k')
    then (if bool_decide (k ∈ skips) then Some "***" else m !! k)
    else m !! k'.
Proof.
  induction skips as [|skip rest IH]; cbn [maskIfListed].
  - destruct (decide (k = k')) as [<-|]; [|reflexivity].
    case_bool_decide as Hin; [by apply elem_of_nil in Hin | reflexivity].
  - destruct (decide (k = skip)) as [->|Hk].
    + rewrite bool_decide_eq_true_2 by reflexivity.
      rewrite (bool_decide_eq_true_2 (skip ∈ skip :: rest)) by left.
      destruct (decide (skip = k')) as [<-|Hne].
      * apply lookup_insert_eq.
      * apply lookup_insert_ne, Hne.
    + rewrite bool_decide_eq_false_2 by exact Hk.
      rewrite IH. destruct (decide (k = k')); [|reflexivity].
      destruct (decide (k ∈ rest)) as [Hin|Hin].
      * rewrite !bool_decide_eq_true_2; [reflexivity|by right|assumption].
      * rewrite !bool_decide_eq_false_2; [reflexivity| |assumption].
        intros [?|?]%elem_of_cons; congruence.
Qed.

(** One iteration on an entry with values: the lower-cased name gets the
    rendered value, every other name keeps its own. *)
Lemma headerStep_lookup skips (m : gmap string string) k v k' :
  v ≠ [] →
  headerStep ToLower skips m (k, v) !! k'
  = if decide (ToLower k = k') then Some (rendered skips (ToLower k) v)
    else m !! k'.
Proof.
  intros Hv. unfold headerStep, rendered, isMasked. simpl.
  destruct v as [|v0 rest]; [congruence|].
  rewrite maskIfListed_lookup.
  destruct (decide (ToLower k = k')) as [<-|Hne].
  - destruct (bool_decide (ToLower k ∈ skips)); [by rewrite orb_true_r|].
    rewrite orb_false_r.
    destruct (builtinMasked (ToLower k)).
    + apply lookup_insert_eq.
    + destruct rest; apply lookup_insert_eq.
  - destruct (builtinMasked (ToLower k)).
    + rewrite lookup_insert_ne by exact Hne.
      destruct rest; apply lookup_insert_ne, Hne.
    + destruct rest; apply lookup_insert_ne, Hne.
Qed.

(** Whatever is stored under a name renders some entry with values whose
    lower-cased name it is. *)
Lemma headerLogField_lookup_Some skips (h : Header) k' x :
  headerLogField ToLower skips h !! k' = Some x →
  ∃ k v, (k, v) ∈ h ∧ v ≠ [] ∧ ToLower k = k' ∧ x = rendered skips k' v.
Proof.
  induction h as [|[k v] h IH] using rev_ind; intros Hx.
  - unfold headerLogField in Hx. simpl in Hx. by rewrite lookup_empty in Hx.
  - rewrite headerLogField_snoc in Hx.
    destruct v as [|v0 rest].
    + simpl in Hx. destruct (IH Hx) as (k0 & v & Hin & ?).
      exists k0, v. split; [|assumption]. apply elem_of_app. by left.
    + rewrite headerStep_lookup in Hx by discriminate.
      destruct (decide (ToLower k = k')) as [<-|Hne].
      * exists k, (v0 :: rest). split; [|split; [discriminate|split; congruence]].
        apply elem_of_app. right. by apply list_elem_of_singleton.
      * destruct (IH Hx) as (k0 & v & Hin & ?).
        exists k0, v. split; [|assumption]. apply elem_of_app. by left.
Qed.

(** Every entry with values leaves something under its lower-cased name. *)
Lemma headerLogField_is_Some skips (h : Header) k v :
  (k, v) ∈ h → v ≠ [] →
  is_Some (headerLogField ToLower skips h !! ToLower k).
Proof.
  induction h as [|[k1 v1] h IH] using rev_ind; intros Hin Hv.
  - by apply elem_of_nil in Hin.
  - rewrite headerLogField_snoc.
    destruct v1 as [|v0 rest].
    + simpl. apply elem_of_app in Hin as [Hin|Hin]; [by apply IH|].
      apply list_elem_of_singleton in Hin. congruence.
    + rewrite headerStep_lookup by discriminate.
      destruct (decide (ToLower k1 = ToLower k)) as [Heq|Hne]; [by eexists|].
      apply elem_of_app in Hin as [Hin|Hin]; [by apply IH|].
      apply list_elem_of_singleton in Hin. congruence.
Qed.

(** An entry with values whose lower-cased name no differing entry shares
    decides what is stored under that name. *)
Lemma headerLogField_lookup_unique skips (h : Header) k v :
  (k, v) ∈ h → v ≠ [] →
  (∀ k2 v2, (k2, v2) ∈ h → v2 ≠ [] → ToLower k2 = ToLower k → v2 = v) →
  headerLogField ToLower skips h !! ToLower k
  = Some (rendered skips (ToLower k) v).
Proof.
  intros Hin Hv Huniq.
  destruct (headerLogField_is_Some skips h k v Hin Hv) as [x Hx].
  rewrite Hx. f_equal.
  apply headerLogField_lookup_Some in Hx as (k0 & v0 & Hin0 & Hv0 & Hk0 & ->).
  by rewrite (Huniq k0 v0 Hin0 Hv0 Hk0).
Qed.

(** A masked name holds the mask, however many entries share it. *)
Lemma headerLogField_lookup_masked skips (h : Header) k v :
  (k, v) ∈ h → v ≠ [] → isMasked skips (ToLower k) = true →
  headerLogField ToLower skips h !! ToLower k = Some "***".
Proof.
  intros Hin Hv Hm.
  destruct (headerLogField_is_Some skips h k v Hin Hv) as [x Hx].
  rewrite Hx. f_equal.
  apply headerLogField_lookup_Some in Hx as (k0 & v0 & _ & _ & _ & ->).
  unfold rendered. by rewrite Hm.
Qed.

Lemma isMasked_spec skips k :
  isMasked skips k = true
  ↔ k = "authorization" ∨ k = "cookie" ∨ k = "set-cookie" ∨ k ∈ skips.
Proof.
  unfold isMasked, builtinMasked.
  rewrite !orb_true_iff, !bool_decide_eq_true. tauto.
Qed.

(** C4. For every header collection the redactor lower-cases each name,
    skips names with no value, stores a single value verbatim, joins
    several values into one bracketed, comma-separated string, and stores
    the mask instead whenever the lower-cased name is authorization,
    cookie, set-cookie or in the configured list; the three built-in names
    are masked whatever the list is. *)
Theorem headerLogField_redacts skips (h : Header) :
  (∀ k', is_Some (headerLogField ToLower skips h !! k')
         ↔ ∃ k v, (k, v) ∈ h ∧ v ≠ [] ∧ ToLower k = k') ∧
  (∀ k' x, headerLogField ToLower skips h !! k' = Some x →
     ∃ k v, (k, v) ∈ h ∧ v ≠ [] ∧ ToLower k = k' ∧ x = rendered skips k' v) ∧
  (∀ k v, (k, v) ∈ h → v ≠ [] →
     (∀ k2 v2, (k2, v2) ∈ h → v2 ≠ [] → ToLower k2 = ToLower k → v2 = v) →
     headerLogField ToLower skips h !! ToLower k
     = Some (rendered skips (ToLower k) v)) ∧
  (∀ k v, (k, v) ∈ h → v ≠ [] →
     (ToLower k = "authorization" ∨ ToLower k = "cookie"
      ∨ ToLower k = "set-cookie" ∨ ToLower k ∈ skips) →
     headerLogField ToLower skips h !! ToLower k = Some "***") ∧
  (∀ k x, rendered skips k [x] = if isMasked skips k then "***" else x) ∧
  (∀ k x y rest,
     rendered skips k (x :: y :: rest)
     = if isMasked skips k then "***"
       else "[" +:+ Join (x :: y :: rest) "], [" +:+ "]") ∧
  (∀ k, isMasked skips k = true
        ↔ k = "authorization" ∨ k = "cookie" ∨ k = "set-cookie" ∨ k ∈ skips).
Proof.
  repeat split.
  - intros [x Hx]. apply headerLogField_lookup_Some in Hx as (k & v & ? & ? & ? & _).
    by exists k, v.
  - intros (k & v & Hin & Hv & <-). by eapply headerLogField_is_Some.
  - apply headerLogField_lookup_Some.
  - apply headerLogField_lookup_unique.
  - intros k v Hin Hv Hm. eapply headerLogField_lookup_masked; [done..|].
    by apply isMasked_spec.
  - by apply isMasked_spec.
  - by apply isMasked_spec.
Qed.

(** What a redacted mapping holds: lower-cased names, and the mask under
    every masked name. *)
Lemma headerLogField_canonical skips (h : Header) k x :
  (∀ s, ToLower (ToLower s) = ToLower s) →
  headerLogField ToLower skips h !! k = Some x →
  ToLower k = k ∧ rendered skips k [x] = x.
Proof.
  intros Hidem Hx.
  apply headerLogField_lookup_Some in Hx as (k0 & v & _ & _ & <- & ->).
  split; [apply Hidem|].
  unfold rendered. by destruct (isMasked skips (ToLower k0)).
Qed.

(** C5. Redaction is idempotent: redacting the header collection formed
    from a redacted mapping, in whatever order it is visited, yields that
    mapping again; masked values stay the mask. *)
Theorem headerLogField_idempotent skips (h h' : Header) :
  (∀ s, ToLower (ToLower s) = ToLower s) →
  h' ≡ₚ headerOfMap (headerLogField ToLower skips h) →
  headerLogField ToLower skips h' = headerLogField ToLower skips h.
Proof.
  intros Hidem Hperm.
  set (m := headerLogField ToLower skips h) in *.
  assert (Hmem : ∀ k v, (k, v) ∈ h' ↔ ∃ x, v = [x] ∧ m !! k = Some x).
  { intros k v. rewrite Hperm. unfold headerOfMap. rewrite list_elem_of_fmap.
    split.
    - intros ([k0 x] & Heq & Hin). simpl in Heq. inversion Heq; subst.
      apply elem_of_map_to_list in Hin. by exists x.
    - intros (x & -> & Hx). exists (k, x). split; [reflexivity|].
      by apply elem_of_map_to_list. }
  apply map_eq. intros k'.
  destruct (m !! k') as [x|] eqn:Hx.
  - destruct (headerLogField_canonical skips h k' x Hidem Hx) as [Hk' Hr].
    assert (Hin : (k', [x]) ∈ h') by (apply Hmem; eauto).
    rewrite <- Hk' at 1.
    rewrite (headerLogField_lookup_unique skips h' k' [x] Hin); [| discriminate |].
    + by rewrite Hk', Hr.
    + intros k2 v2 Hin2 _ Hk2.
      apply Hmem in Hin2 as (x2 & -> & Hx2).
      destruct (headerLogField_canonical skips h k2 x2 Hidem Hx2) as [Hk2' _].
      assert (k2 = k') by congruence. subst k2.
      fold m in Hx2. congruence.
  - destruct (headerLogField ToLower skips h' !! k') as [y|] eqn:Hy; [|reflexivity].
    apply headerLogField_lookup_Some in Hy as (k & v & Hin & _ & Hk & _).
    apply Hmem in Hin as (x & -> & Hxk).
    destruct (headerLogField_canonical skips h k x Hidem Hxk) as [Hkk _].
    fold m in Hxk. congruence.
Qed.

(** ** The option set *)

(** The loop of [Configure] on cells [off+i .. off+i+n) of array [a]: these
    cells, and no other cell of the store, are replaced by their
    lower-cased form. *)
Lemma lowerRange_spec a off n :
  ∀ i (arrays : list (list string)) cells,
    arrays !! a = Some cells →
    (off + i + n ≤ List.length cells)%nat →
    ∃ cells',
      lowerRange ToLower a off i n arrays !! a = Some cells' ∧
      List.length cells' = List.length cells ∧
      (∀ j, cells' !! j
            = if bool_decide (off + i ≤ j < off + i + n)%nat
              then ToLower <$> cells !! j else cells !! j) ∧
      (∀ b, b ≠ a → lowerRange ToLower a off i n arrays !! b = arrays !! b).
Proof.
  induction n as [|n IH]; intros i arrays cells Ha Hlen; cbn [lowerRange].
  - exists cells. split_and!; [assumption|reflexivity| |reflexivity].
    intros j. rewrite bool_decide_eq_false_2 by lia. reflexivity.
  - rewrite Ha. unfold default; cbn [from_option id].
    destruct (lookup_lt_is_Some_2 cells (off + i)%nat) as [header Hh]; [lia|].
    rewrite Hh.
    set (cells1 := <[(off + i)%nat := ToLower header]> cells).
    assert (Ha1 : <[a := cells1]> arrays !! a = Some cells1).
    { apply list_lookup_insert_eq. by eapply lookup_lt_Some. }
    assert (Hlen1 : List.length cells1 = List.length cells)
      by apply length_insert.
    destruct (IH (S i) (<[a := cells1]> arrays) cells1 Ha1) as
      (cells' & Hcells' & Hl' & Hj & Hb); [lia|].
    exists cells'. split_and!; [assumption|congruence| |].
    + intros j. rewrite Hj. unfold cells1.
      destruct (decide (j = (off + i)%nat)) as [->|Hne].
      * rewrite bool_decide_eq_false_2 by lia.
        rewrite bool_decide_eq_true_2 by lia.
        rewrite list_lookup_insert_eq by lia. by rewrite Hh.
      * rewrite list_lookup_insert_ne by congruence.
        repeat case_bool_decide; try reflexivity; lia.
    + intros b Hne. rewrite Hb by assumption.
      by apply list_lookup_insert_ne.
Qed.

(** The elements of a window whose cells were lower-cased in place. *)
Lemma window_lowered (cells cells' : list string) off len :
  List.length cells' = List.length cells →
  (∀ j, cells' !! j
        = if bool_decide (off ≤ j < off + len)%nat
          then ToLower <$> cells !! j else cells !! j) →
  take len (drop off cells') = ToLower <$> take len (drop off cells).
Proof.
  intros Hlen Hj. apply list_eq. intros j.
  rewrite list_lookup_fmap.
  destruct (decide (j < len)%nat) as [Hlt|Hge].
  - rewrite !lookup_take_lt, !lookup_drop by assumption.
    rewrite Hj. by rewrite bool_decide_eq_true_2 by lia.
  - by rewrite !lookup_take_ge by lia.
Qed.

(** [Configure] in one step: the arrays after the loop, the options
    stored, the default logger replaced. *)
Lemma Configure_run opts σ :
  Configure ToLower opts σ
  = (Ret tt,
     set_wDefault (slog.New (parseLevel ToLower (LogLevel (defaulted opts))))
       (set_wOptions (defaulted opts)
          (match SkipHeaders opts with
           | SliceNil => σ
           | SliceOf a off len =>
               set_wArrays (lowerRange ToLower a off 0 len (wArrays σ)) σ
           end))).
Proof. reflexivity. Qed.

(** C10. [Configure] lower-cases the caller's slice in place: the cells of
    the backing array inside the window of [opts.SkipHeaders] are
    overwritten with their lower-cased form and no other cell changes;
    afterwards [DefaultOptions.SkipHeaders] is that same slice, so the
    redaction list in force is the lower-cased one; the flag and the tags
    are stored as passed and the four strings are defaulted when empty. *)
Theorem Configure_lowers_in_place opts σ :
  sliceOk (wArrays σ) (SkipHeaders opts) →
  let σ' := exec (Configure ToLower opts) σ in
  outcome (Configure ToLower opts) σ = Ret tt ∧
  sliceElems (wArrays σ') (SkipHeaders opts)
    = ToLower <$> sliceElems (wArrays σ) (SkipHeaders opts) ∧
  (∀ a off len cells,
     SkipHeaders opts = SliceOf a off len → wArrays σ !! a = Some cells →
     ∃ cells',
       wArrays σ' !! a = Some cells' ∧
       List.length cells' = List.length cells ∧
       (∀ j, cells' !! j
             = if bool_decide (off ≤ j < off + len)%nat
               then ToLower <$> cells !! j else cells !! j) ∧
       (∀ b, b ≠ a → wArrays σ' !! b = wArrays σ !! b)) ∧
  (SkipHeaders opts = SliceNil → wArrays σ' = wArrays σ) ∧
  SkipHeaders (wOptions σ') = SkipHeaders opts ∧
  skipList σ' = ToLower <$> sliceElems (wArrays σ) (SkipHeaders opts) ∧
  Concise (wOptions σ') = Concise opts ∧
  Tags (wOptions σ') = Tags opts ∧
  LogLevel (wOptions σ')
    = (if bool_decide (LogLevel opts = "") then "info" else LogLevel opts) ∧
  LevelFieldName (wOptions σ')
    = (if bool_decide (LevelFieldName opts = "") then "level"
       else LevelFieldName opts) ∧
  TimeFieldFormat (wOptions σ')
    = (if bool_decide (TimeFieldFormat opts = "") then RFC3339Nano
       else TimeFieldFormat opts) ∧
  TimeFieldName (wOptions σ')
    = (if bool_decide (TimeFieldName opts = "") then "timestamp"
       else TimeFieldName opts).
Proof.
  intros Hok σ'. subst σ'. unfold exec, outcome, skipList.
  rewrite Configure_run. cbn [fst snd].
  assert (Hcells : ∀ a off len cells,
     SkipHeaders opts = SliceOf a off len → wArrays σ !! a = Some cells →
     ∃ cells',
       lowerRange ToLower a off 0 len (wArrays σ) !! a = Some cells' ∧
       List.length cells' = List.length cells ∧
       (∀ j, cells' !! j
             = if bool_decide (off ≤ j < off + len)%nat
               then ToLower <$> cells !! j else cells !! j) ∧
       (∀ b, b ≠ a →
          lowerRange ToLower a off 0 len (wArrays σ) !! b = wArrays σ !! b)).
  { intros a off len cells Hs Ha. rewrite Hs in Hok. cbn in Hok.
    destruct Hok as (cells0 & Ha0 & Hlen). rewrite Ha in Ha0. inversion Ha0; subst cells0.
    destruct (lowerRange_spec a off len 0 (wArrays σ) cells Ha) as
      (cells' & H1 & H2 & H3 & H4); [lia|].
    exists cells'. split_and!; [assumption..| |assumption].
    intros j. rewrite H3. by rewrite Nat.add_0_r. }
  assert (Helems :
    sliceElems
      (wArrays (match SkipHeaders opts with
                | SliceNil => σ
                | SliceOf a off len =>
                    set_wArrays (lowerRange ToLower a off 0 len (wArrays σ)) σ
                end)) (SkipHeaders opts)
    = ToLower <$> sliceElems (wArrays σ) (SkipHeaders opts)).
  { destruct (SkipHeaders opts) as [|a off len] eqn:Hs; [reflexivity|].
    cbn [sliceElems set_wArrays wArrays].
    pose proof Hok as Hok'. cbn in Hok'. destruct Hok' as (cells & Ha & Hlen).
    destruct (Hcells a off len cells eq_refl Ha) as (cells' & H1 & H2 & H3 & _).
    rewrite H1, Ha. unfold default; cbn [from_option id].
    by apply window_lowered. }
  split_and!; try reflexivity.
  - exact Helems.
  - intros a off len cells Hs Ha. rewrite Hs. cbn.
    by apply Hcells.
  - intros Hs. by rewrite Hs.
  - exact Helems.
Qed.

(** ** The request logger entry *)

(** The level of a status is one of three. *)
Lemma statusLevel_cases status :
  (statusLevel status = slog.LevelInfo ∧ 0 < status < 400) ∨
  (statusLevel status = slog.LevelWarn ∧ (status <= 0 ∨ 400 <= status < 500)) ∨
  (statusLevel status = slog.LevelError ∧ 500 <= status).
Proof.
  unfold statusLevel, slog.LevelInfo, slog.LevelWarn, slog.LevelError.
  repeat case_bool_decide; lia.
Qed.

(** What reaches the sink through a logger at a level. *)
Lemma log_app l lvl m out :
  ∃ new, slog.log l lvl m out = out ++ new ∧
         (new = [] ∨ new = [slog.mkRecord lvl m (slog.attrs l)]).
Proof.
  unfold slog.log. case_bool_decide.
  - eexists. split; [reflexivity|]. by right.
  - exists []. split; [by rewrite app_nil_r|]. by left.
Qed.

(** [Write] on an allocated entry, in one step: the call is noted; unless
    the level is info, one record goes to the logger of the entry extended
    with the response fields, at the level of the status. *)
Lemma Write_run p e status bytes header elapsed extra σ :
  wEntries σ !! p = Some e →
  Write ToLower p status bytes header elapsed extra σ
  = (Ret tt,
     if bool_decide (statusLevel status = slog.LevelInfo)
     then noted (CallWrite p status) σ
     else set_wStdout
            (slog.log (endLogger ToLower σ e status bytes header elapsed extra)
               (statusLevel status) (responseMsg status (msg e)) (wStdout σ))
            (noted (CallWrite p status) σ)).
Proof.
  intros He.
  unfold Write, noteCall, loadEntry, emit, bind, get, modify, ret.
  cbn [wEntries set_wCalls]. rewrite He.
  destruct (statusLevel_cases status) as [[Hl _]|[[Hl _]|[Hl _]]]; rewrite Hl;
    reflexivity.
Qed.

(** [Write] through a pointer with no cell: the call is noted and the
    dereference panics. *)
Lemma Write_run_nil p status bytes header elapsed extra σ :
  wEntries σ !! p = None →
  exec (Write ToLower p status bytes header elapsed extra) σ
  = noted (CallWrite p status) σ.
Proof.
  intros He.
  unfold exec, Write, noteCall, loadEntry, bind, get, modify, ret.
  cbn [wEntries set_wCalls]. by rewrite He.
Qed.

(** C2. For every status whose level is info, that is every status in
    (0, 400), [Write] emits no record; whatever the status, [Write] emits
    at most one record, and its level is warn or error. *)
Theorem Write_suppresses_info p status bytes header elapsed extra σ :
  let σ' := exec (Write ToLower p status bytes header elapsed extra) σ in
  (statusLevel status = slog.LevelInfo → wStdout σ' = wStdout σ) ∧
  (0 < status < 400 → wStdout σ' = wStdout σ) ∧
  ∃ new, wStdout σ' = wStdout σ ++ new ∧
         (List.length new ≤ 1)%nat ∧
         ∀ rec, rec ∈ new →
           slog.recLevel rec = slog.LevelWarn ∨ slog.recLevel rec = slog.LevelError.
Proof.
  intros σ'. subst σ'.
  destruct (wEntries σ !! p) as [e|] eqn:He.
  - unfold exec. rewrite (Write_run p e) by assumption. cbn [snd].
    destruct (statusLevel_cases status) as [[Hl Hr]|[[Hl Hr]|[Hl Hr]]]; rewrite Hl.
    + rewrite bool_decide_eq_true_2 by reflexivity.
      split_and!; [reflexivity..|].
      exists []. split_and!; [by rewrite app_nil_r|simpl; lia|].
      intros rec Hin. by apply elem_of_nil in Hin.
    + rewrite bool_decide_eq_false_2 by discriminate.
      split_and!; [discriminate|lia|].
      destruct (log_app (endLogger ToLower σ e status bytes header elapsed extra)
                  slog.LevelWarn (responseMsg status (msg e)) (wStdout σ))
        as (new & Hnew & Hcase).
      exists new. cbn [wStdout set_wStdout]. split; [exact Hnew|].
      destruct Hcase as [->| ->]; (split; [simpl; lia|]); intros rec Hin.
      * by apply elem_of_nil in Hin.
      * apply list_elem_of_singleton in Hin. subst rec. by left.
    + rewrite bool_decide_eq_false_2 by discriminate.
      split_and!; [discriminate|lia|].
      destruct (log_app (endLogger ToLower σ e status bytes header elapsed extra)
                  slog.LevelError (responseMsg status (msg e)) (wStdout σ))
        as (new & Hnew & Hcase).
      exists new. cbn [wStdout set_wStdout]. split; [exact Hnew|].
      destruct Hcase as [->| ->]; (split; [simpl; lia|]); intros rec Hin.
      * by apply elem_of_nil in Hin.
      * apply list_elem_of_singleton in Hin. subst rec. by right.
  - rewrite Write_run_nil by assumption. cbn [noted wStdout set_wCalls].
    split_and!; [reflexivity..|].
    exists []. split_and!; [by rewrite app_nil_r|simpl; lia|].
    intros rec Hin. by apply elem_of_nil in Hin.
Qed.

(** [NewLogEntry] in one step: a fresh cell holds the entry; unless the
    options are concise, the start record is logged at info level. *)
Lemma NewLogEntry_run l r σ :
  NewLogEntry ToLower l r σ
  = (Ret (List.length (wEntries σ)),
     if Concise (wOptions σ) then withEntry ToLower l r σ
     else set_wStdout
            (slog.log
               (slog.With (entryLogger ToLower l σ r) "httpRequest"
                  (slog.VFields (requestLogFields ToLower (skipList σ) r false)))
               slog.LevelInfo ("Request: " +:+ Method r +:+ " " +:+ Path r)
               (wStdout σ))
            (withEntry ToLower l r σ)).
Proof.
  unfold NewLogEntry, allocEntry, emit, bind, get, modify, ret.
  destruct (Concise (wOptions σ)) eqn:Hc; cbn [negb]; reflexivity.
Qed.

(** The response fields in concise mode are status, bytes and elapsed. *)
Lemma responseLog_concise skips status bytes header elapsed extra :
  responseLog ToLower true skips status bytes header elapsed extra
  = <["elapsed" := slog.FMillis elapsed]>
      (<["bytes" := slog.FInt bytes]> (<["status" := slog.FInt status]> ∅)).
Proof. reflexivity. Qed.

(** C7. With the concise option set, creating the entry of a request emits
    no start record, and at every finalization, whatever the status, the
    response fields hold neither the body nor the header mapping: every
    record [Write] emits carries exactly status, bytes and elapsed. *)
Theorem concise_suppresses l r p status bytes header elapsed extra σ :
  Concise (wOptions σ) = true →
  wStdout (exec (NewLogEntry ToLower l r) σ) = wStdout σ ∧
  (∀ skips,
     let fields :=
       responseLog ToLower true skips status bytes header elapsed extra in
     fields !! "body" = None ∧ fields !! "header" = None ∧
     dom fields = {["status"; "bytes"; "elapsed"]}) ∧
  ∃ new,
    wStdout (exec (Write ToLower p status bytes header elapsed extra) σ)
    = wStdout σ ++ new ∧
    ∀ rec, rec ∈ new →
      ∃ e, wEntries σ !! p = Some e ∧
           slog.recAttrs rec
           = slog.attrs (Logger e)
             ++ [("httpResponse",
                  slog.VFields (responseLog ToLower true (skipList σ) status
                                  bytes header elapsed extra))].
Proof.
  intros Hc. split_and!.
  - unfold exec. rewrite NewLogEntry_run, Hc. reflexivity.
  - intros skips fields. subst fields. rewrite responseLog_concise.
    split_and!.
    + by rewrite !lookup_insert_ne, lookup_empty.
    + by rewrite !lookup_insert_ne, lookup_empty.
    + rewrite !dom_insert_L, dom_empty_L. set_solver.
  - destruct (wEntries σ !! p) as [e|] eqn:He.
    + unfold exec. rewrite (Write_run p e) by assumption. cbn [snd].
      case_bool_decide.
      * exists []. split; [by rewrite app_nil_r|].
        intros rec Hin. by apply elem_of_nil in Hin.
      * destruct (log_app (endLogger ToLower σ e status bytes header elapsed extra)
                    (statusLevel status) (responseMsg status (msg e)) (wStdout σ))
          as (new & Hnew & Hcase).
        exists new. cbn [wStdout set_wStdout]. split; [exact Hnew|].
        intros rec Hin. exists e. split; [reflexivity|].
        destruct Hcase as [->| ->]; [by apply elem_of_nil in Hin|].
        apply list_elem_of_singleton in Hin. subst rec.
        unfold endLogger. rewrite Hc. reflexivity.
    + rewrite Write_run_nil by assumption.
      exists []. split; [by rewrite app_nil_r|].
      intros rec Hin. by apply elem_of_nil in Hin.
Qed.

(** [Panic] on an allocated entry, in one step: the call is noted, the
    cell holds the annotated entry, the panic value is dumped on standard
    error. *)
Lemma Panic_run p e v stack σ :
  wEntries σ !! p = Some e →
  Panic p v stack σ
  = (Ret tt,
     set_wStderr (wStderr σ ++ [v])
       (set_wEntries (<[p := annotated e v stack]> (wEntries σ))
          (noted (CallPanic p v) σ))).
Proof.
  intros He.
  unfold Panic, noteCall, loadEntry, storeEntry, PrintPrettyStack, bind, get,
    modify, ret.
  cbn [wEntries set_wCalls]. rewrite He. reflexivity.
Qed.

(** C8 (amended). [Panic(v, stack)] adds the fields stacktrace and panic to
    the logger of the entry, sets the short message to the formatted panic
    value, dumps the panic on standard error and emits no record itself.
    The [Write] that follows uses the message [Response: status label],
    followed by [ - ] and the formatted value only when that value is not
    empty, and emits its record only when the level of the status is warn
    or error. *)
Theorem Panic_annotates p e v stack σ :
  wEntries σ !! p = Some e →
  let σ' := exec (Panic p v stack) σ in
  outcome (Panic p v stack) σ = Ret tt ∧
  wEntries σ' !! p = Some (annotated e v stack) ∧
  slog.attrs (Logger (annotated e v stack))
    = slog.attrs (Logger e)
      ++ [("stacktrace", slog.VLeaf (slog.FStr stack));
          ("panic", slog.VLeaf (slog.FStr (fmt_v v)))] ∧
  msg (annotated e v stack) = fmt_v v ∧
  wStderr σ' = wStderr σ ++ [v] ∧
  wStdout σ' = wStdout σ ∧
  ∀ status bytes header elapsed extra,
    let m := "Response: " +:+ fmt_d status +:+ " " +:+ statusLabel status in
    responseMsg status (fmt_v v)
      = (if bool_decide (fmt_v v = "") then m else m +:+ " - " +:+ fmt_v v) ∧
    wStdout (exec (Write ToLower p status bytes header elapsed extra) σ')
      = if bool_decide (statusLevel status = slog.LevelInfo) then wStdout σ
        else slog.log
               (endLogger ToLower σ' (annotated e v stack) status bytes header
                  elapsed extra)
               (statusLevel status) (responseMsg status (fmt_v v)) (wStdout σ).
Proof.
  intros He σ'. subst σ'. unfold exec, outcome.
  rewrite (Panic_run p e) by assumption. cbn [fst snd].
  assert (Hp : wEntries
                 (set_wStderr (wStderr σ ++ [v])
                    (set_wEntries (<[p := annotated e v stack]> (wEntries σ))
                       (noted (CallPanic p v) σ))) !! p
               = Some (annotated e v stack)).
  { cbn [wEntries set_wStderr set_wEntries].
    apply list_lookup_insert_eq. by eapply lookup_lt_Some. }
  split_and!; try reflexivity.
  - exact Hp.
  - unfold annotated, slog.With. cbn [Logger slog.attrs]. by rewrite <- app_assoc.
  - intros status bytes header elapsed extra. split.
    + unfold responseMsg. by repeat case_bool_decide.
    + rewrite (Write_run p (annotated e v stack)) by exact Hp. cbn [snd].
      case_bool_decide; reflexivity.
Qed.

(** ** Looking the entry up *)

(** C9. [LogEntry] never fails and never changes anything: it returns the
    logger of the entry the context holds, and the process-wide default
    logger when the context holds no entry, a nil entry pointer, or a value
    that is not a request-logger entry. *)
Theorem LogEntry_total ctx σ :
  (∀ p, ctxValue ctx LogEntryCtxKey = Some (CtxEntry (Some p)) →
        is_Some (wEntries σ !! p)) →
  exec (LogEntry ctx) σ = σ ∧
  (∃ l, outcome (LogEntry ctx) σ = Ret l) ∧
  (∀ p e, ctxValue ctx LogEntryCtxKey = Some (CtxEntry (Some p)) →
          wEntries σ !! p = Some e →
          outcome (LogEntry ctx) σ = Ret (Logger e)) ∧
  (ctxValue ctx LogEntryCtxKey = None →
   outcome (LogEntry ctx) σ = Ret (wDefault σ)) ∧
  (ctxValue ctx LogEntryCtxKey = Some (CtxEntry None) →
   outcome (LogEntry ctx) σ = Ret (wDefault σ)) ∧
  (∀ v, ctxValue ctx LogEntryCtxKey = Some v →
        (∀ p, v ≠ CtxEntry p) →
        outcome (LogEntry ctx) σ = Ret (wDefault σ)).
Proof.
  intros Hwf. unfold exec, outcome, LogEntry, loadEntry, bind, get, ret.
  destruct (ctxValue ctx LogEntryCtxKey) as [[[p|]|s|]|] eqn:Hctx.
  1: destruct (Hwf p eq_refl) as [e He]; rewrite He.
  all: cbn; split_and!; try done; try (by eexists).
  all: try (intros p' e' [= <-] He'; congruence).
  all: intros v [= <-] Hv; first [reflexivity | exfalso; by eapply Hv].
Qed.

(** ** The middleware driver *)

(** The skip test is membership of the path in the first list given. *)
Lemma skipped_spec (optSkipPaths : list (list string)) r :
  skipped optSkipPaths r = true
  ↔ ∃ paths rest, optSkipPaths = paths :: rest ∧ Path r ∈ paths.
Proof.
  unfold skipped, skipSet. rewrite andb_true_iff, !bool_decide_eq_true.
  destruct optSkipPaths as [|paths rest].
  - split.
    + intros [_ Hin]. by apply elem_of_empty in Hin.
    + intros (? & ? & ? & _). discriminate.
  - rewrite elem_of_list_to_set. split.
    + intros [_ Hin]. by exists paths, rest.
    + intros (? & ? & [= <- <-] & Hin). split; [|exact Hin].
      destruct (decide (size (list_to_set paths : gset string) = 0%nat))
        as [Hz|Hnz]; [|lia].
      apply size_empty_iff in Hz.
      assert (Path r ∈ (list_to_set paths : gset string))
        by by apply elem_of_list_to_set.
      set_solver.
Qed.

(** C6. A request is skipped exactly when its path is equal to one of the
    paths of the skip list; for a skipped request [Handler] is the
    downstream handler itself, called with the writer and the request it
    was given: no entry is allocated, no wrapper is installed, no record is
    emitted and the context of the request is untouched. *)
Theorem Handler_skips logger (optSkipPaths : list (list string))
  (next : HandlerFn) w r :
  (skipped optSkipPaths r = true
   ↔ ∃ paths rest, optSkipPaths = paths :: rest ∧
                   ∃ path, path ∈ paths ∧ path = Path r) ∧
  (skipped optSkipPaths r = true →
   Handler ToLower logger optSkipPaths next w r = next w r ∧
   ∀ σ, exec (Handler ToLower logger optSkipPaths (λ _ _, ret tt) w r) σ = σ).
Proof.
  split.
  - rewrite skipped_spec. split.
    + intros (paths & rest & -> & Hin). exists paths, rest. split; [done|].
      by exists (Path r).
    + intros (paths & rest & -> & path & Hin & ->). by exists paths, rest.
  - intros Hskip. unfold Handler. rewrite Hskip. by split.
Qed.

(** Unfolding of the monad and of the primitive operations. *)
Ltac unfold_calls :=
  unfold exec, outcome, WriteHeader, WriteBody, wrapWrite, wrapWriteHeader,
    rawWriteHeader, rawWrite, theWrap, readAllTee, LogEntry, LogEntrySetField,
    loadEntry, storeEntry, emit, noteCall, PrintPrettyStack, nilDeref, panic,
    bind, get, modify, ret in *.

(** One case analysis on a test the goal still branches on. *)
Ltac split_test :=
  first
    [ case_bool_decide
    | match goal with
      | |- context [if ?b then _ else _] => destruct b eqn:?
      | |- context [match ?b with _ => _ end] => destruct b eqn:?
      end ].

(** One step of a downstream handler keeps the exchange under way and
    makes no finalization call; a quiet step returns. *)
Lemma runAction_inv a r p σ :
  ready p σ → carries r p →
  ready p (exec (runAction a WWrap r) σ) ∧
  wCalls (exec (runAction a WWrap r) σ) = wCalls σ ∧
  (quiet a → outcome (runAction a WWrap r) σ = Ret tt).
Proof.
  intros [[e He] (b & t & Hb & Ht)] Hr. unfold carries in Hr. unfold ready.
  destruct a as [k vs|code|body|lvl m|key value|ns|v trace];
    unfold runAction; unfold_calls; cbn; rewrite ?Hr, ?Hb, ?He; cbn.
  all: repeat first [ progress (rewrite ?Hb, ?He, ?Ht; cbn) | split_test ].
  all: try (split_and!; eauto; try lia; fail).
  split_and!; eauto.
  apply lookup_lt_is_Some. rewrite length_insert. by eapply lookup_lt_Some.
Qed.

(** A downstream handler keeps the exchange under way and makes no
    finalization call; it returns when all its steps are quiet, and
    panics with the value of its first [panic] when the steps before it
    are quiet. *)
Lemma runScript_inv acts r p :
  carries r p →
  ∀ σ, ready p σ →
    ready p (exec (runScript acts WWrap r) σ) ∧
    wCalls (exec (runScript acts WWrap r) σ) = wCalls σ ∧
    (Forall quiet acts → outcome (runScript acts WWrap r) σ = Ret tt) ∧
    (∀ pre v t post, acts = pre ++ ActPanic v t :: post → Forall quiet pre →
       outcome (runScript acts WWrap r) σ = Panicking v t).
Proof.
  intros Hr. induction acts as [|a rest IH]; intros σ Hready.
  - split_and!; try done. intros [|??] v t post Heq; simpl in Heq; discriminate Heq.
  - destruct (runAction_inv a r p σ Hready Hr) as (Hready1 & Hcalls1 & Hquiet1).
    unfold exec, outcome in *. cbn [runScript]. unfold bind at 1 2 3 4.
    destruct (runAction a WWrap r σ) as [[[]|v0 t0] σ1] eqn:Hstep; cbn [fst snd] in *.
    + destruct (IH σ1 Hready1) as (H1 & H2 & H3 & H4).
      split_and!; [assumption|congruence| |].
      * intros Hall. apply H3. by inversion Hall.
      * intros pre v t post Heq Hpre. destruct pre as [|a' pre'].
        -- simpl in Heq. inversion Heq; subst a.
           cbn in Hstep. unfold panic in Hstep. discriminate Hstep.
        -- simpl in Heq. inversion Heq; subst a' rest.
           apply (H4 pre' v t post eq_refl). by inversion Hpre.
    + split_and!; [assumption..| |].
      * intros Hall. apply Hquiet1. by inversion Hall.
      * intros pre v t post Heq Hpre. destruct pre as [|a' pre'].
        -- simpl in Heq. inversion Heq; subst a.
           cbn in Hstep. unfold panic in Hstep. by inversion Hstep.
        -- simpl in Heq. inversion Heq; subst a' rest.
           exfalso. assert (Hq : quiet a) by by inversion Hpre.
           specialize (Hquiet1 Hq). discriminate Hquiet1.
Qed.

(** The recovery of a panic other than [http.ErrAbortHandler] calls
    [Panic] on the entry of the request, once, and returns. *)
Lemma recovered_run v t r p σ :
  carries r p → ready p σ → v ≠ AnyErrAbortHandler →
  ready p (exec (recovered WWrap r v t) σ) ∧
  wCalls (exec (recovered WWrap r v t) σ) = wCalls σ ++ [CallPanic p v] ∧
  outcome (recovered WWrap r v t) σ = Ret tt.
Proof.
  intros Hr [[e He] (b & t0 & Hb & Ht)] Hv. unfold carries in Hr. unfold ready.
  destruct v; try congruence.
  all: unfold recovered, GetLogEntry, Panic; rewrite Hr; unfold_calls; cbn;
    rewrite ?Hb, ?He; cbn.
  all: repeat first [ progress (rewrite ?Hb, ?He, ?Ht; cbn) | split_test ].
  all: try lia.
  all: split_and!; eauto.
  all: apply lookup_lt_is_Some; rewrite length_insert; by eapply lookup_lt_Some.
Qed.

(** [Recoverer] around a handler that left the exchange under way: a
    return is passed on; [http.ErrAbortHandler] goes on unwinding; any
    other panic is stopped after one [Panic] call. *)
Lemma Recoverer_run (next : HandlerFn) r p σ :
  carries r p → ready p (exec (next WWrap r) σ) →
  ready p (exec (Recoverer next WWrap r) σ) ∧
  match outcome (next WWrap r) σ with
  | Ret _ =>
      wCalls (exec (Recoverer next WWrap r) σ) = wCalls (exec (next WWrap r) σ) ∧
      outcome (Recoverer next WWrap r) σ = Ret tt
  | Panicking v t =>
      (v = AnyErrAbortHandler →
       wCalls (exec (Recoverer next WWrap r) σ) = wCalls (exec (next WWrap r) σ) ∧
       outcome (Recoverer next WWrap r) σ = Panicking v t) ∧
      (v ≠ AnyErrAbortHandler →
       wCalls (exec (Recoverer next WWrap r) σ)
         = wCalls (exec (next WWrap r) σ) ++ [CallPanic p v] ∧
       outcome (Recoverer next WWrap r) σ = Ret tt)
  end.
Proof.
  intros Hr Hready. unfold Recoverer, deferRecover, exec, outcome in *.
  destruct (next WWrap r σ) as [[[]|v t] σ1]; cbn [fst snd] in *.
  - by split_and!.
  - destruct (decide (v = AnyErrAbortHandler)) as [->|Hv].
    + cbn. by split_and!.
    + destruct (recovered_run v t r p σ1 Hr Hready Hv) as (H1 & H2 & H3).
      unfold exec, outcome in *. by split_and!.
Qed.

(** The deferred function of [Handler] calls [Write] on the entry, once,
    with the status the wrapper recorded, and returns. *)
Lemma finalizer_run p t1 σ :
  ready p σ →
  ∃ status,
    wCalls (exec (finalizer ToLower p t1) σ) = wCalls σ ++ [CallWrite p status] ∧
    outcome (finalizer ToLower p t1) σ = Ret tt.
Proof.
  intros [[e He] (b & t & Hb & Ht)]. exists (bwCode b).
  unfold finalizer, exec, outcome.
  destruct (bool_decide (bwCode b >= 400)) eqn:Hcode.
  all: repeat (progress (unfold bind, theWrap, readAllTee, get, ret, modify;
                         cbn -[Write]; rewrite ?Hb, ?Hcode, ?Ht)).
  all: (erewrite Write_run by (cbn; exact He)); cbn [fst snd];
    destruct (bool_decide (statusLevel (bwCode b) = slog.LevelInfo)); by split.
Qed.

(** [Handler] on a request that is not skipped: the downstream handler
    runs on the wrapper, with the entry in the context of the request,
    under the deferred finalizer. *)
Lemma Handler_run logger skips (next : HandlerFn) w r σ :
  skipped skips r = false →
  Handler ToLower logger skips next w r σ
  = defer (next WWrap (WithLogEntry r (List.length (wEntries σ))))
          (finalizer ToLower (List.length (wEntries σ)) (wNow σ))
          (prepared ToLower logger r σ).
Proof.
  intros Hskip. unfold Handler, prepared, exec. rewrite Hskip.
  unfold bind at 1. rewrite NewLogEntry_run.
  unfold NewWrapResponseWriter, bind, get, modify.
  destruct (Concise (wOptions σ)); reflexivity.
Qed.

Lemma prepared_ready logger r σ :
  ready (List.length (wEntries σ)) (prepared ToLower logger r σ) ∧
  wCalls (prepared ToLower logger r σ) = wCalls σ.
Proof.
  unfold prepared, exec, ready. rewrite NewLogEntry_run.
  destruct (Concise (wOptions σ)); cbn.
  all: split; [split; [|by eauto]|reflexivity].
  all: rewrite (list_lookup_middle (wEntries σ) [] _ _ eq_refl); by eexists.
Qed.

(** [RequestID] calls the next handler with the identifier in the context
    of the request; entries and finalization calls are as before. *)
Lemma RequestID_run (next : HandlerFn) w r σ :
  ∃ id σ0,
    RequestID next w r σ
    = next w (withCtx r ((RequestIDKey, CtxString id) :: Ctx r)) σ0 ∧
    wEntries σ0 = wEntries σ ∧ wCalls σ0 = wCalls σ.
Proof.
  unfold RequestID, bind, get, modify, ret.
  case_bool_decide; cbn; eexists _, _; split_and!; reflexivity.
Qed.

(** C1 (amended). For every request that is not skipped, [Write] runs
    exactly once, as the last finalization call, on every exit path of the
    downstream handler. [Panic] does not replace it: when the downstream
    handler panics with a value other than [http.ErrAbortHandler],
    [Panic] runs once and [Write] runs after it; when the handler returns,
    or panics with [http.ErrAbortHandler], [Write] runs alone. *)
Theorem Write_runs_exactly_once logger skips acts r σ :
  skipped skips r = false →
  let c := RequestLogger ToLower logger skips (runScript acts) WRaw r in
  let p := List.length (wEntries σ) in
  ∃ status,
    (wCalls (exec c σ) = wCalls σ ++ [CallWrite p status] ∨
     ∃ v, v ≠ AnyErrAbortHandler ∧
          wCalls (exec c σ) = wCalls σ ++ [CallPanic p v; CallWrite p status]) ∧
    (Forall quiet acts →
     wCalls (exec c σ) = wCalls σ ++ [CallWrite p status] ∧
     outcome c σ = Ret tt) ∧
    (∀ pre v t post, acts = pre ++ ActPanic v t :: post → Forall quiet pre →
       (v = AnyErrAbortHandler →
        wCalls (exec c σ) = wCalls σ ++ [CallWrite p status] ∧
        outcome c σ = Panicking v t) ∧
       (v ≠ AnyErrAbortHandler →
        wCalls (exec c σ) = wCalls σ ++ [CallPanic p v; CallWrite p status] ∧
        outcome c σ = Ret tt)).
Proof.
  intros Hskip c p. subst c p. unfold RequestLogger, exec, outcome.
  destruct (RequestID_run
              (Handler ToLower logger skips (Recoverer (runScript acts))) WRaw r σ)
    as (id & σ0 & -> & Hentries & Hcalls).
  set (r1 := withCtx r ((RequestIDKey, CtxString id) :: Ctx r)).
  rewrite (Handler_run logger skips _ WRaw r1 σ0) by exact Hskip.
  rewrite <- Hentries, <- Hcalls.
  set (p := List.length (wEntries σ0)).
  set (r2 := WithLogEntry r1 p).
  assert (Hr2 : carries r2 p) by reflexivity.
  destruct (prepared_ready logger r1 σ0) as [Hready0 Hcalls0]. fold p in Hready0.
  set (σp := prepared ToLower logger r1 σ0) in *.
  destruct (runScript_inv acts r2 p Hr2 σp Hready0) as (Hready1 & Hcalls1 & Hret & Hpanic).
  destruct (Recoverer_run (runScript acts) r2 p σp Hr2 Hready1) as [Hready2 Hrec].
  destruct (finalizer_run p (wNow σ0) _ Hready2) as (status & Hfin & Hfinret).
  exists status. unfold defer, exec, outcome in *.
  destruct (Recoverer (runScript acts) WWrap r2 σp) as [res σ3] eqn:Hrun.
  cbn [fst snd] in *.
  destruct (finalizer ToLower p (wNow σ0) σ3) as [resf σ4] eqn:Hfinrun.
  cbn [fst snd] in *. subst resf. cbn [fst snd].
  destruct (runScript acts WWrap r2 σp) as [[[]|v0 t0] σs] eqn:Hscript;
    cbn [fst snd] in *.
  - destruct Hrec as [Hc3 ->].
    assert (Hall : wCalls σ4 = wCalls σ0 ++ [CallWrite p status]) by congruence.
    split_and!; [by left|by intros _|].
    intros pre v t post Heq Hpre. specialize (Hpanic pre v t post Heq Hpre).
    discriminate Hpanic.
  - destruct Hrec as [Habort Hother].
    destruct (decide (v0 = AnyErrAbortHandler)) as [Hv|Hv].
    + destruct (Habort Hv) as [Hc3 ->].
      assert (Hall : wCalls σ4 = wCalls σ0 ++ [CallWrite p status]) by congruence.
      split_and!; [by left| |].
      * intros Hq. specialize (Hret Hq). discriminate Hret.
      * intros pre v t post Heq Hpre. specialize (Hpanic pre v t post Heq Hpre).
        split; [intros _|intros Hne]; [split; congruence|congruence].
    + destruct (Hother Hv) as [Hc3 ->].
      assert (Hall : wCalls σ4 = wCalls σ0 ++ [CallPanic p v0; CallWrite p status]).
      { rewrite Hfin, Hc3, Hcalls1, Hcalls0. by rewrite <- app_assoc. }
      split_and!.
      * right. by exists v0.
      * intros Hq. specialize (Hret Hq). discriminate Hret.
      * intros pre v t post Heq Hpre. specialize (Hpanic pre v t post Heq Hpre).
        split; [intros Heqv|intros _]; [congruence|split; congruence].
Qed.

(** ** More on the header redactor *)

(** X1. The entry visited last decides what is stored under its lower-cased
    name: when two names differ only in case, the value kept depends on the
    order in which the map is visited. *)
Theorem headerLogField_last_wins skips (h : Header) k v :
  v ≠ [] →
  headerLogField ToLower skips (h ++ [(k, v)]) !! ToLower k
  = Some (rendered skips (ToLower k) v).
Proof.
  intros Hv. rewrite headerLogField_snoc, headerStep_lookup by exact Hv.
  by destruct (decide (ToLower k = ToLower k)).
Qed.

(** X2. When the entries that share a lower-cased name carry the same values,
    the redacted mapping does not depend on the order of the visit. *)
Theorem headerLogField_order_independent skips (h h' : Header) :
  h ≡ₚ h' →
  (∀ k1 v1 k2 v2, (k1, v1) ∈ h → (k2, v2) ∈ h → v1 ≠ [] → v2 ≠ [] →
                  ToLower k1 = ToLower k2 → v1 = v2) →
  headerLogField ToLower skips h = headerLogField ToLower skips h'.
Proof.
  intros Hperm Hagree. apply map_eq. intros k'.
  destruct (headerLogField ToLower skips h !! k') as [x|] eqn:Hx.
  - apply headerLogField_lookup_Some in Hx as (k & v & Hin & Hv & <- & ->).
    symmetry. apply headerLogField_lookup_unique; [by rewrite <- Hperm|exact Hv|].
    intros k2 v2 Hin2 Hv2 Hk2. rewrite <- Hperm in Hin2.
    by apply (Hagree k2 v2 k v).
  - destruct (headerLogField ToLower skips h' !! k') as [y|] eqn:Hy; [|reflexivity].
    apply headerLogField_lookup_Some in Hy as (k & v & Hin & Hv & <- & _).
    rewrite <- Hperm in Hin.
    destruct (headerLogField_is_Some skips h k v Hin Hv) as [z Hz]. congruence.
Qed.

(** X3. The redaction list is compared with the lower-cased name as it stands:
    an entry of the list that is not its own lower-cased form masks
    nothing. *)
Theorem unlowered_skip_masks_nothing s skips (h : Header) :
  (∀ x, ToLower (ToLower x) = ToLower x) →
  ToLower s ≠ s →
  headerLogField ToLower (s :: skips) h = headerLogField ToLower skips h.
Proof.
  intros Hidem Hs. unfold headerLogField. generalize (∅ : gmap string string).
  induction h as [|[k v] h IH]; intros acc; [reflexivity|].
  cbn [foldl]. rewrite <- IH. f_equal.
  unfold headerStep. cbn [fst snd]. destruct v as [|v0 rest]; [reflexivity|].
  cbn [maskIfListed]. rewrite bool_decide_eq_false_2; [reflexivity|].
  intros Hk. apply Hs. rewrite <- Hk. apply Hidem.
Qed.

(** ** More on the option set *)

Lemma defaulted_idem opts : defaulted (defaulted opts) = defaulted opts.
Proof.
  destruct opts as [ll lfn c tg sh tff tfn]. unfold defaulted. cbn.
  unfold RFC3339Nano.
  f_equal; repeat case_bool_decide; try reflexivity; congruence.
Qed.

(** Lower-casing a window that was already lower-cased changes nothing. *)
Lemma lowerRange_idem a off len (arrays : list (list string)) cells :
  (∀ x, ToLower (ToLower x) = ToLower x) →
  arrays !! a = Some cells →
  (off + len ≤ List.length cells)%nat →
  lowerRange ToLower a off 0 len (lowerRange ToLower a off 0 len arrays)
  = lowerRange ToLower a off 0 len arrays.
Proof.
  intros Hidem Ha Hlen.
  destruct (lowerRange_spec a off len 0 arrays cells Ha) as
    (c1 & Hc1 & Hl1 & Hp1 & Ho1); [lia|].
  destruct (lowerRange_spec a off len 0 _ c1 Hc1) as
    (c2 & Hc2 & Hl2 & Hp2 & Ho2); [lia|].
  apply list_eq. intros b. destruct (decide (b = a)) as [Heq|Hne].
  - subst b. trans (Some c2); [exact Hc2|].
    trans (Some c1); [|symmetry; exact Hc1]. f_equal. apply list_eq. intros j.
    rewrite Hp2. case_bool_decide; [|reflexivity].
    rewrite Hp1. rewrite bool_decide_eq_true_2 by assumption.
    destruct (cells !! j); cbn; [by rewrite Hidem|reflexivity].
  - by apply Ho2.
Qed.

(** The redaction list in force after [Configure]: the elements of the
    slice passed, lower-cased. *)
Lemma Configure_skipList opts σ :
  sliceOk (wArrays σ) (SkipHeaders opts) →
  skipList (exec (Configure ToLower opts) σ)
  = ToLower <$> sliceElems (wArrays σ) (SkipHeaders opts).
Proof.
  intros Hok. unfold exec, skipList. rewrite Configure_run. cbn [snd].
  destruct (SkipHeaders opts) as [|a off len] eqn:Hs.
  - cbn. by rewrite Hs.
  - cbn. rewrite Hs. cbn. destruct Hok as (cells & Ha & Hlen).
    destruct (lowerRange_spec a off len 0 (wArrays σ) cells Ha) as
      (c1 & Hc1 & Hl1 & Hp1 & _); [lia|].
    rewrite Hc1, Ha. unfold default; cbn [from_option id].
    apply window_lowered; [exact Hl1|].
    intros j. rewrite Hp1. by rewrite Nat.add_0_r.
Qed.

(** Configuring again with the options just stored changes nothing. *)
Lemma Configure_again opts σ :
  (∀ x, ToLower (ToLower x) = ToLower x) →
  sliceOk (wArrays σ) (SkipHeaders opts) →
  let σ' := exec (Configure ToLower opts) σ in
  exec (Configure ToLower (wOptions σ')) σ' = σ'.
Proof.
  intros Hidem Hok σ'. subst σ'. unfold exec. rewrite !Configure_run. cbn [snd].
  cbn [wOptions set_wDefault set_wOptions]. rewrite defaulted_idem.
  assert (Hsame : SkipHeaders (defaulted opts) = SkipHeaders opts) by reflexivity.
  rewrite Hsame.
  destruct (SkipHeaders opts) as [|a off len] eqn:Hs.
  - destruct σ. reflexivity.
  - destruct Hok as (cells & Ha & Hlen).
    pose proof (lowerRange_idem a off len (wArrays σ) cells Hidem Ha Hlen) as Hl.
    destruct σ. cbn in *. by rewrite Hl.
Qed.

(** X4. A header whose name matches, whatever the case, a name of the slice
    passed to [Configure] is masked from then on. *)
Theorem configured_name_is_masked opts σ n (h : Header) k v :
  sliceOk (wArrays σ) (SkipHeaders opts) →
  n ∈ sliceElems (wArrays σ) (SkipHeaders opts) →
  (k, v) ∈ h → v ≠ [] → ToLower k = ToLower n →
  headerLogField ToLower (skipList (exec (Configure ToLower opts) σ)) h
    !! ToLower k
  = Some "***".
Proof.
  intros Hok Hn Hin Hv Hk. rewrite Configure_skipList by exact Hok.
  apply (headerLogField_lookup_masked _ h k v Hin Hv).
  apply isMasked_spec. right; right; right. rewrite Hk.
  apply list_elem_of_fmap. by exists n.
Qed.

(** [NewLogger] in one step: [Configure] runs on the first options given,
    or on the options in force, and the logger is derived from the default
    logger it installs. *)
Lemma NewLogger_run name (opts : list Options) σ :
  NewLogger ToLower name opts σ
  = (Ret (namedLogger ToLower name
            (exec (Configure ToLower
                     (match opts with o :: _ => o | [] => wOptions σ end)) σ)),
     exec (Configure ToLower
             (match opts with o :: _ => o | [] => wOptions σ end)) σ).
Proof.
  unfold NewLogger, namedLogger, exec, bind, get, ret.
  destruct opts as [|o rest]; rewrite Configure_run; cbn [fst snd];
    case_bool_decide; reflexivity.
Qed.

(** X5. [NewLogger] with no options configures again with the options in
    force: after a first [NewLogger] with options, a second one without
    leaves the configuration, the caller's slice and the default logger as
    they are, and returns the logger the same options would give. *)
Theorem NewLogger_without_options name name' opts rest σ :
  (∀ x, ToLower (ToLower x) = ToLower x) →
  sliceOk (wArrays σ) (SkipHeaders opts) →
  let σ' := exec (NewLogger ToLower name (opts :: rest)) σ in
  exec (NewLogger ToLower name' []) σ' = σ' ∧
  outcome (NewLogger ToLower name' []) σ'
  = outcome (NewLogger ToLower name' (opts :: rest)) σ.
Proof.
  intros Hidem Hok σ'.
  assert (Hσ' : σ' = exec (Configure ToLower opts) σ).
  { subst σ'. unfold exec. by rewrite NewLogger_run. }
  unfold exec, outcome. rewrite !NewLogger_run. cbn [fst snd].
  rewrite <- Hσ'.
  assert (Hagain : exec (Configure ToLower (wOptions σ')) σ' = σ').
  { rewrite Hσ'. by apply Configure_again. }
  by rewrite Hagain.
Qed.

(** ** Request fields *)



(** X7. In the verbose request fields a header whose lower-cased name is
    masked is present under [header] with the mask as its value. *)
Theorem request_header_masked skips r k v :
  (k, v) ∈ ReqHeader r → v ≠ [] → isMasked skips (ToLower k) = true →
  ∃ m, requestLogFields ToLower skips r false !! "header"
       = Some (slog.FStrMap m) ∧
       m !! ToLower k = Some "***".
Proof.
  intros Hin Hv Hm. exists (headerLogField ToLower skips (ReqHeader r)).
  split; [|by eapply headerLogField_lookup_masked].
  unfold requestLogFields.
  rewrite bool_decide_eq_true_2.
  - apply lookup_insert_eq.
  - destruct (ReqHeader r); [by apply elem_of_nil in Hin|simpl; lia].
Qed.

(** ** More on the entry *)

(** X8. The response fields of [Write]: status, bytes and elapsed always; the
    body only in verbose mode and from status 400 on, empty when [extra] is
    not a byte slice; the header mapping only in verbose mode and for a
    header collection that is not empty; nothing else. *)
Theorem responseLog_fields concise skips status bytes header elapsed extra :
  let m := responseLog ToLower concise skips status bytes header elapsed extra in
  m !! "status" = Some (slog.FInt status) ∧
  m !! "bytes" = Some (slog.FInt bytes) ∧
  m !! "elapsed" = Some (slog.FMillis elapsed) ∧
  m !! "body"
  = (if negb concise && bool_decide (400 <= status)
     then Some (slog.FStr (match extra with AnyBytes b => b | _ => "" end))
     else None) ∧
  m !! "header"
  = (if negb concise && bool_decide (header ≠ [])
     then Some (slog.FStrMap (headerLogField ToLower skips header))
     else None) ∧
  (∀ k, is_Some (m !! k) →
        k = "status" ∨ k = "bytes" ∨ k = "elapsed" ∨ k = "body" ∨ k = "header").
Proof.
  intros m. subst m. unfold responseLog.
  destruct concise; cbn [negb andb];
    [|destruct header as [|kv header]; cbn [List.length];
      repeat case_bool_decide; try lia; try congruence].
  all: split_and!;
    try (rewrite ?lookup_insert_eq, ?lookup_insert_ne, ?lookup_empty by done;
         reflexivity).
  all: intros k Hk; apply elem_of_dom in Hk; revert Hk;
    rewrite !dom_insert_L, dom_empty_L; set_unfold; intuition.
Qed.

(** X9. [NewLogEntry] allocates a fresh entry whose logger carries the concise
    request fields whatever the options are, with an empty short message.
    The start record is emitted only in verbose mode and when the logger is
    enabled at info level; it carries [httpRequest] twice, first with the
    concise and then with the verbose fields. *)
Theorem NewLogEntry_start_record l r σ :
  let σ' := exec (NewLogEntry ToLower l r) σ in
  let concise :=
    ("httpRequest",
     slog.VFields (requestLogFields ToLower (skipList σ) r true)) in
  let verbose :=
    ("httpRequest",
     slog.VFields (requestLogFields ToLower (skipList σ) r false)) in
  outcome (NewLogEntry ToLower l r) σ = Ret (List.length (wEntries σ)) ∧
  wEntries σ'
  = wEntries σ
    ++ [mkEntry (slog.mkLogger (slog.handlerLevel l) (slog.attrs l ++ [concise]))
                ""] ∧
  wStdout σ'
  = (if Concise (wOptions σ) || bool_decide (slog.LevelInfo < slog.handlerLevel l)
     then wStdout σ
     else wStdout σ
          ++ [slog.mkRecord slog.LevelInfo
                ("Request: " +:+ Method r +:+ " " +:+ Path r)
                (slog.attrs l ++ [concise; verbose])]).
Proof.
  intros σ' concise verbose. subst σ' concise verbose.
  unfold exec, outcome. rewrite NewLogEntry_run. cbn [fst snd].
  destruct (Concise (wOptions σ)) eqn:Hc; cbn [orb].
  - by split_and!.
  - split_and!; try reflexivity.
    cbn [wStdout set_wStdout]. unfold slog.log, entryLogger, slog.With.
    cbn [slog.handlerLevel slog.attrs].
    repeat case_bool_decide; try lia; [|reflexivity].
    by rewrite <- app_assoc.
Qed.

(** X10. [Write] keeps no trace of having run: the entry is as before, and a
    second call with the same arguments emits the same record again. *)
Theorem Write_again p e status bytes header elapsed extra σ :
  wEntries σ !! p = Some e →
  let σ1 := exec (Write ToLower p status bytes header elapsed extra) σ in
  let σ2 := exec (Write ToLower p status bytes header elapsed extra) σ1 in
  wEntries σ1 = wEntries σ ∧
  ∃ new, wStdout σ1 = wStdout σ ++ new ∧ wStdout σ2 = wStdout σ ++ new ++ new.
Proof.
  intros He σ1 σ2. subst σ2 σ1. unfold exec.
  rewrite (Write_run p e _ _ _ _ _ σ) by exact He. cbn [snd].
  destruct (bool_decide (statusLevel status = slog.LevelInfo)) eqn:Hinfo.
  - rewrite (Write_run p e) by exact He. rewrite Hinfo.
    split; [reflexivity|]. exists []. by rewrite !app_nil_r.
  - rewrite (Write_run p e) by exact He. rewrite Hinfo.
    split; [reflexivity|]. cbn [snd wStdout set_wStdout noted set_wCalls].
    unfold slog.log, endLogger. cbn [slog.handlerLevel slog.With].
    destruct (bool_decide (slog.handlerLevel (Logger e) <= statusLevel status)).
    + eexists. split; [reflexivity|]. by rewrite <- app_assoc.
    + exists []. by rewrite !app_nil_r.
Qed.

(** ** Fields set by downstream handlers *)

(** [LogEntrySetField] on an allocated entry, in one step. *)
Lemma LogEntrySetField_run ctx p e key value σ :
  carriesCtx ctx p → wEntries σ !! p = Some e →
  LogEntrySetField ctx key value σ
  = (Ret tt,
     set_wEntries
       (<[p := mkEntry (slog.With (Logger e) key (slog.VLeaf (slog.FStr value)))
                       (msg e)]> (wEntries σ)) σ).
Proof.
  intros Hctx He. unfold carriesCtx in Hctx.
  unfold LogEntrySetField, loadEntry, storeEntry, bind, get, modify, ret.
  rewrite Hctx. cbn. by rewrite He.
Qed.

(** X11. A field set with [LogEntrySetField] is on the logger [LogEntry] returns
    from then on; the short message, the other entries and the sink are
    untouched. *)
Theorem LogEntrySetField_then_LogEntry ctx p e key value σ :
  carriesCtx ctx p → wEntries σ !! p = Some e →
  let σ' := exec (LogEntrySetField ctx key value) σ in
  outcome (LogEntrySetField ctx key value) σ = Ret tt ∧
  outcome (LogEntry ctx) σ'
  = Ret (slog.With (Logger e) key (slog.VLeaf (slog.FStr value))) ∧
  (msg <$> wEntries σ' !! p) = Some (msg e) ∧
  (∀ q, q ≠ p → wEntries σ' !! q = wEntries σ !! q) ∧
  wStdout σ' = wStdout σ.
Proof.
  intros Hctx He σ'. subst σ'. unfold exec, outcome.
  rewrite (LogEntrySetField_run ctx p e) by assumption. cbn [fst snd].
  assert (Hp : (<[p := mkEntry (slog.With (Logger e) key
                                  (slog.VLeaf (slog.FStr value))) (msg e)]>
                  (wEntries σ)) !! p
               = Some (mkEntry (slog.With (Logger e) key
                                  (slog.VLeaf (slog.FStr value))) (msg e))).
  { apply list_lookup_insert_eq. by eapply lookup_lt_Some. }
  split_and!; try reflexivity.
  - unfold LogEntry, loadEntry, bind, get, ret. unfold carriesCtx in Hctx.
    rewrite Hctx. cbn. by rewrite Hp.
  - cbn [wEntries set_wEntries]. by rewrite Hp.
  - intros q Hq. cbn [wEntries set_wEntries]. by apply list_lookup_insert_ne.
Qed.

(** X12. Without an entry in the context [LogEntrySetField] does nothing; on a
    nil entry pointer it panics, where [LogEntry] falls back to the default
    logger. *)
Theorem LogEntrySetField_without_entry ctx key value σ :
  ((∀ p, ctxValue ctx LogEntryCtxKey ≠ Some (CtxEntry p)) →
   LogEntrySetField ctx key value σ = (Ret tt, σ)) ∧
  (ctxValue ctx LogEntryCtxKey = Some (CtxEntry None) →
   (∃ v t, outcome (LogEntrySetField ctx key value) σ = Panicking v t) ∧
   exec (LogEntrySetField ctx key value) σ = σ ∧
   outcome (LogEntry ctx) σ = Ret (wDefault σ)).
Proof.
  unfold exec, outcome, LogEntrySetField, LogEntry. split.
  - intros Hno. destruct (ctxValue ctx LogEntryCtxKey) as [[p|s|]|]; try reflexivity.
    by destruct (Hno p).
  - intros ->. cbn. split_and!; [by eexists _, _|reflexivity..].
Qed.

(** X13. [LogEntrySetFields] attaches the whole map as one attribute under the
    key [!BADKEY]: none of its keys becomes the key of an attribute. *)
Theorem LogEntrySetFields_single_attribute ctx p e
  (fields : gmap string slog.FieldValue) σ :
  carriesCtx ctx p → wEntries σ !! p = Some e →
  let σ' := exec (LogEntrySetFields ctx fields) σ in
  outcome (LogEntrySetFields ctx fields) σ = Ret tt ∧
  ∃ l, outcome (LogEntry ctx) σ' = Ret l ∧
       slog.attrs l = slog.attrs (Logger e) ++ [("!BADKEY", slog.VFields fields)] ∧
       (slog.attrs l).*1 = (slog.attrs (Logger e)).*1 ++ ["!BADKEY"].
Proof.
  intros Hctx He σ'. subst σ'. unfold carriesCtx in Hctx.
  unfold exec, outcome, LogEntrySetFields, LogEntry, loadEntry, storeEntry,
    bind, get, modify, ret.
  rewrite Hctx. cbn. rewrite He. cbn.
  rewrite list_lookup_insert_eq by (by eapply lookup_lt_Some).
  split; [reflexivity|]. eexists. split; [reflexivity|].
  cbn. split; [reflexivity|]. by rewrite fmap_app.
Qed.

(** X14. A field set by a downstream handler is on the end record: [Write]
    emits through the logger of the entry as the handler left it. *)
Theorem set_field_reaches_end_record ctx p e key value status bytes header
  elapsed extra σ :
  carriesCtx ctx p → wEntries σ !! p = Some e →
  statusLevel status ≠ slog.LevelInfo →
  slog.handlerLevel (Logger e) <= statusLevel status →
  wStdout (exec (Write ToLower p status bytes header elapsed extra)
             (exec (LogEntrySetField ctx key value) σ))
  = wStdout σ
    ++ [slog.mkRecord (statusLevel status) (responseMsg status (msg e))
          (slog.attrs (Logger e)
           ++ [(key, slog.VLeaf (slog.FStr value));
               ("httpResponse",
                slog.VFields
                  (responseLog ToLower (Concise (wOptions σ)) (skipList σ)
                     status bytes header elapsed extra))])].
Proof.
  intros Hctx He Hlvl Hen. unfold exec at 2.
  rewrite (LogEntrySetField_run ctx p e) by assumption. cbn [snd].
  unfold exec. erewrite Write_run.
  2:{ cbn [wEntries set_wEntries]. apply list_lookup_insert_eq.
      by eapply lookup_lt_Some. }
  cbn [snd]. rewrite bool_decide_eq_false_2 by exact Hlvl.
  cbn [wStdout set_wStdout noted set_wCalls set_wEntries].
  unfold slog.log, endLogger, slog.With. cbn [slog.handlerLevel slog.attrs Logger msg].
  rewrite bool_decide_eq_true_2 by exact Hen.
  unfold skipList. cbn [wArrays wOptions set_wEntries].
  by rewrite <- app_assoc.
Qed.

(** X15. The downstream handler of a request that is not skipped runs with a
    context from which [LogEntry] returns the logger of the fresh entry of
    the request, whatever entry the context held before: the logger given
    to [Handler] with the concise request fields attached. *)
Theorem downstream_sees_entry l skips (next : HandlerFn) w r σ :
  skipped skips r = false →
  ∃ r' σp fin,
    Handler ToLower l skips next w r σ = defer (next WWrap r') fin σp ∧
    LogEntry (Ctx r') σp
    = (Ret (slog.mkLogger (slog.handlerLevel l)
              (slog.attrs l
               ++ [("httpRequest",
                    slog.VFields
                      (requestLogFields ToLower (skipList σ) r true))])),
       σp).
Proof.
  intros Hskip. eexists _, _, _. split; [by apply Handler_run|].
  unfold LogEntry, WithLogEntry, withCtx, loadEntry, bind, get, ret.
  cbn [Ctx ctxValue]. rewrite bool_decide_eq_true_2 by reflexivity.
  unfold prepared, exec. rewrite NewLogEntry_run.
  destruct (Concise (wOptions σ)); cbn [snd wEntries set_wWrap set_wStdout withEntry set_wEntries].
  all: by rewrite (list_lookup_middle (wEntries σ) [] _ _ eq_refl).
Qed.

(** ** Skipped requests under [RequestLogger] *)

Lemma unlogged_refl σ : unlogged σ σ.
Proof.
  unfold unlogged. split_and!; try reflexivity.
  exists []. by rewrite app_nil_r.
Qed.

Lemma unlogged_trans σ1 σ2 σ3 :
  unlogged σ1 σ2 → unlogged σ2 σ3 → unlogged σ1 σ3.
Proof.
  intros (H1 & H2 & H3 & H4 & new1 & H5 & H6) (K1 & K2 & K3 & K4 & new2 & K5 & K6).
  unfold unlogged. split_and!; try congruence.
  exists (new1 ++ new2). split; [by rewrite K5, H5, app_assoc|].
  apply Forall_app. split; [exact H6|]. by rewrite <- H4.
Qed.

(** One step of a handler on the writer of the server, without an entry in
    the context. *)
Lemma runAction_raw a r σ :
  noEntry r →
  unlogged σ (exec (runAction a WRaw r) σ) ∧
  wStderr (exec (runAction a WRaw r) σ) = wStderr σ ∧
  (quiet a → outcome (runAction a WRaw r) σ = Ret tt).
Proof.
  intros Hno. unfold noEntry in Hno. unfold unlogged.
  destruct a as [k vs|code|body|lvl m|key value|ns|v trace];
    unfold runAction; unfold_calls; cbn.
  all: try (destruct (ctxValue (Ctx r) LogEntryCtxKey) as [[p|s|]|] eqn:Hctx;
            [by destruct (Hno p)|..]); cbn.
  all: repeat split_test; cbn.
  all: split_and!; try reflexivity; try lia; try done.
  all: try (exists []; split; [by rewrite app_nil_r|by constructor]).
  all: unfold slog.log; case_bool_decide;
    try (exists []; split; [by rewrite app_nil_r|by constructor]).
  all: eexists; split; [reflexivity|]; by repeat constructor.
Qed.

Lemma runScript_raw acts r :
  noEntry r →
  ∀ σ,
    unlogged σ (exec (runScript acts WRaw r) σ) ∧
    wStderr (exec (runScript acts WRaw r) σ) = wStderr σ ∧
    (Forall quiet acts → outcome (runScript acts WRaw r) σ = Ret tt) ∧
    (∀ pre v t post, acts = pre ++ ActPanic v t :: post → Forall quiet pre →
       outcome (runScript acts WRaw r) σ = Panicking v t).
Proof.
  intros Hno. induction acts as [|a rest IH]; intros σ.
  - split_and!; try done; [apply unlogged_refl|].
    intros [|??] v t post Heq; simpl in Heq; discriminate Heq.
  - destruct (runAction_raw a r σ Hno) as (Hun1 & Herr1 & Hquiet1).
    unfold exec, outcome in *. cbn [runScript]. unfold bind at 1 2 3 4.
    destruct (runAction a WRaw r σ) as [[[]|v0 t0] σ1] eqn:Hstep; cbn [fst snd] in *.
    + destruct (IH σ1) as (H1 & H2 & H3 & H4).
      split_and!; [by eapply unlogged_trans|congruence| |].
      * intros Hall. apply H3. by inversion Hall.
      * intros pre v t post Heq Hpre. destruct pre as [|a' pre'].
        -- simpl in Heq. inversion Heq; subst a.
           cbn in Hstep. unfold panic in Hstep. discriminate Hstep.
        -- simpl in Heq. inversion Heq; subst a' rest.
           apply (H4 pre' v t post eq_refl). by inversion Hpre.
    + split_and!; [assumption..| |].
      * intros Hall. apply Hquiet1. by inversion Hall.
      * intros pre v t post Heq Hpre. destruct pre as [|a' pre'].
        -- simpl in Heq. inversion Heq; subst a.
           cbn in Hstep. unfold panic in Hstep. by inversion Hstep.
        -- simpl in Heq. inversion Heq; subst a' rest.
           exfalso. assert (Hq : quiet a) by by inversion Hpre.
           specialize (Hquiet1 Hq). discriminate Hquiet1.
Qed.

(** [RequestID] leaves everything but its counter alone. *)
Lemma RequestID_frame (next : HandlerFn) w r σ :
  ∃ id σ0,
    RequestID next w r σ
    = next w (withCtx r ((RequestIDKey, CtxString id) :: Ctx r)) σ0 ∧
    unlogged σ σ0 ∧ wStderr σ0 = wStderr σ.
Proof.
  unfold RequestID, bind, get, modify, ret.
  case_bool_decide; cbn; eexists _, _; split; try reflexivity.
  all: split; [|reflexivity].
  all: unfold unlogged; cbn; split_and!; try reflexivity.
  all: exists []; split; [by rewrite app_nil_r|by constructor].
Qed.

(** X16. A request on a skipped path goes through [RequestLogger] without any
    logging by the middleware, whatever its handler does: no entry, no
    wrapper, no finalization call, and no record besides those the handler
    itself writes through the default logger. A panic of the handler is
    still recovered: its value is dumped on standard error and the call
    returns. *)
Theorem skipped_request_is_not_logged logger skips acts r σ :
  skipped skips r = true → noEntry r →
  let c := RequestLogger ToLower logger skips (runScript acts) WRaw r in
  unlogged σ (exec c σ) ∧
  (Forall quiet acts → wStderr (exec c σ) = wStderr σ ∧ outcome c σ = Ret tt) ∧
  (∀ pre v t post, acts = pre ++ ActPanic v t :: post → Forall quiet pre →
     v ≠ AnyErrAbortHandler →
     wStderr (exec c σ) = wStderr σ ++ [v] ∧ outcome c σ = Ret tt).
Proof.
  intros Hskip Hno c. subst c. unfold RequestLogger.
  destruct (RequestID_frame
              (Handler ToLower logger skips (Recoverer (runScript acts))) WRaw r σ)
    as (id & σ0 & Hrun & Hun0 & Herr0).
  unfold exec, outcome. rewrite Hrun.
  set (r1 := withCtx r ((RequestIDKey, CtxString id) :: Ctx r)).
  assert (Hno1 : noEntry r1).
  { intros p. unfold r1, withCtx. cbn [Ctx ctxValue].
    rewrite bool_decide_eq_false_2 by discriminate. apply Hno. }
  assert (Hskip1 : skipped skips r1 = true) by exact Hskip.
  unfold Handler. rewrite Hskip1. unfold Recoverer, deferRecover.
  destruct (runScript_raw acts r1 Hno1 σ0) as (Hun & Herr & Hret & Hpanic).
  unfold exec, outcome in *.
  destruct (runScript acts WRaw r1 σ0) as [[[]|v0 t0] σ1] eqn:Hscript;
    cbn [fst snd] in *.
  - split_and!; [by eapply unlogged_trans| |].
    + intros _. split; [congruence|reflexivity].
    + intros pre v t post Heq Hpre Hv. specialize (Hpanic pre v t post Heq Hpre).
      discriminate Hpanic.
  - assert (Hrec : v0 ≠ AnyErrAbortHandler →
              unlogged σ1 (recovered WRaw r1 v0 t0 σ1).2 ∧
              wStderr (recovered WRaw r1 v0 t0 σ1).2 = wStderr σ1 ++ [v0] ∧
              (recovered WRaw r1 v0 t0 σ1).1 = Ret tt).
    { intros Hv. unfold recovered, GetLogEntry, unlogged.
      destruct (ctxValue (Ctx r1) LogEntryCtxKey) as [[p|s|]|] eqn:Hctx;
        [by destruct (Hno1 p)|..].
      all: destruct v0; try congruence; unfold_calls; cbn.
      all: repeat split_test; cbn; try lia.
      all: split_and!; try reflexivity.
      all: exists []; split; [by rewrite app_nil_r|by constructor]. }
    split_and!.
    + destruct (decide (v0 = AnyErrAbortHandler)) as [->|Hv].
      * cbn. by eapply unlogged_trans.
      * destruct (Hrec Hv) as (Hu & _ & _).
        eapply unlogged_trans; [exact Hun0|]. by eapply unlogged_trans.
    + intros Hq. specialize (Hret Hq). discriminate Hret.
    + intros pre v t post Heq Hpre Hv. specialize (Hpanic pre v t post Heq Hpre).
      inversion Hpanic; subst v0 t0.
      destruct (Hrec Hv) as (_ & Hs & Ho). split; [|exact Ho].
      rewrite Hs. congruence.
Qed.

(** ** Entries of other requests *)

Lemma othersKept_refl p σ : othersKept p σ σ.
Proof. by split. Qed.

Lemma othersKept_trans p σ1 σ2 σ3 :
  othersKept p σ1 σ2 → othersKept p σ2 σ3 → othersKept p σ1 σ3.
Proof.
  intros [H1 H2] [K1 K2]. split; [congruence|].
  intros q Hq. by rewrite K2, H2.
Qed.

Lemma runAction_kept a w r p σ :
  carries r p → othersKept p σ (exec (runAction a w r) σ).
Proof.
  intros Hr. unfold carries in Hr.
  destruct (wWrap σ) as [b|] eqn:Hb; destruct (wEntries σ !! p) as [e|] eqn:He.
  all: destruct a as [k vs|code|body|lvl m|key value|ns|v trace], w;
    unfold runAction; unfold_calls; cbn; rewrite ?Hr, ?Hb, ?He; cbn.
  all: repeat first [ progress (rewrite ?Hb, ?He; cbn) | split_test ].
  all: split; cbn; [by rewrite ?length_insert|];
    intros q Hq; by rewrite ?list_lookup_insert_ne by done.
Qed.

Lemma runScript_kept acts w r p :
  carries r p → ∀ σ, othersKept p σ (exec (runScript acts w r) σ).
Proof.
  intros Hr. induction acts as [|a rest IH]; intros σ; [apply othersKept_refl|].
  pose proof (runAction_kept a w r p σ Hr) as Hstep.
  unfold exec in *. cbn [runScript]. unfold bind.
  destruct (runAction a w r σ) as [[[]|v t] σ1]; cbn [snd] in *; [|exact Hstep].
  eapply othersKept_trans; [exact Hstep|apply IH].
Qed.

Lemma recovered_kept w r p v t σ :
  carries r p → othersKept p σ (exec (recovered w r v t) σ).
Proof.
  intros Hr. unfold carries in Hr.
  destruct (wWrap σ) as [b|] eqn:Hb; destruct (wEntries σ !! p) as [e|] eqn:He.
  all: destruct v, w; unfold recovered, GetLogEntry, Panic; rewrite ?Hr;
    unfold_calls; cbn; rewrite ?Hb, ?He; cbn.
  all: repeat first [ progress (rewrite ?Hb, ?He; cbn) | split_test ].
  all: split; cbn; [by rewrite ?length_insert|];
    intros q Hq; by rewrite ?list_lookup_insert_ne by done.
Qed.

(** [Write] leaves every entry as it is. *)
Lemma Write_entries p status bytes header elapsed extra σ :
  wEntries (exec (Write ToLower p status bytes header elapsed extra) σ)
  = wEntries σ.
Proof.
  destruct (wEntries σ !! p) as [e|] eqn:He.
  - unfold exec. rewrite (Write_run p e) by exact He. cbn [snd].
    by case_bool_decide.
  - by rewrite Write_run_nil.
Qed.

Lemma finalizer_entries p t1 σ :
  wEntries (exec (finalizer ToLower p t1) σ) = wEntries σ.
Proof.
  unfold finalizer, exec.
  destruct (wWrap σ) as [b|] eqn:Hb.
  - destruct (bool_decide (bwCode b >= 400)) eqn:Hcode;
      [destruct (bwTee b) as [tee|] eqn:Ht|].
    all: repeat (progress (unfold bind, theWrap, readAllTee, get, ret, modify,
                             nilDeref, panic;
                           cbn -[Write]; rewrite ?Hb, ?Hcode, ?Ht)).
    all: try reflexivity.
    all: match goal with
         | |- wEntries (Write ToLower ?q ?st ?by_ ?h ?el ?ex ?w).2 = _ =>
             exact (Write_entries q st by_ h el ex w)
         end.
  - unfold bind, theWrap, get, ret, nilDeref, panic. cbn. by rewrite Hb.
Qed.

(** X17. Handling a request that is not skipped adds exactly one entry and
    leaves the entries of earlier requests as they are, whatever the
    handler does. *)
Theorem earlier_entries_untouched logger skips acts r σ :
  skipped skips r = false →
  let σ' := exec (RequestLogger ToLower logger skips (runScript acts) WRaw r) σ in
  List.length (wEntries σ') = S (List.length (wEntries σ)) ∧
  ∀ q, (q < List.length (wEntries σ))%nat → wEntries σ' !! q = wEntries σ !! q.
Proof.
  intros Hskip σ'. subst σ'. unfold RequestLogger, exec.
  destruct (RequestID_run
              (Handler ToLower logger skips (Recoverer (runScript acts))) WRaw r σ)
    as (id & σ0 & -> & Hentries & _).
  set (r1 := withCtx r ((RequestIDKey, CtxString id) :: Ctx r)).
  rewrite (Handler_run logger skips _ WRaw r1 σ0) by exact Hskip.
  rewrite <- Hentries.
  set (p := List.length (wEntries σ0)).
  set (r2 := WithLogEntry r1 p).
  assert (Hr2 : carries r2 p) by reflexivity.
  assert (Hprep : ∃ e0, wEntries (prepared ToLower logger r1 σ0) = wEntries σ0 ++ [e0]).
  { unfold prepared, exec. rewrite NewLogEntry_run.
    destruct (Concise (wOptions σ0)); by eexists. }
  destruct Hprep as [e0 Hprep].
  set (σp := prepared ToLower logger r1 σ0) in *.
  assert (Hbody : othersKept p σp (Recoverer (runScript acts) WWrap r2 σp).2).
  { unfold Recoverer, deferRecover.
    pose proof (runScript_kept acts WWrap r2 p Hr2 σp) as Hs. unfold exec in Hs.
    destruct (runScript acts WWrap r2 σp) as [[[]|v t] σ1]; cbn [snd] in *;
      [exact Hs|].
    eapply othersKept_trans; [exact Hs|]. by apply recovered_kept. }
  assert (Hfin : wEntries
                   (defer (Recoverer (runScript acts) WWrap r2)
                      (finalizer ToLower p (wNow σ0)) σp).2
                 = wEntries (Recoverer (runScript acts) WWrap r2 σp).2).
  { unfold defer.
    pose proof (finalizer_entries p (wNow σ0)
                  (Recoverer (runScript acts) WWrap r2 σp).2) as Hf.
    unfold exec in Hf.
    destruct (Recoverer (runScript acts) WWrap r2 σp) as [res σ3]. cbn [snd] in *.
    destruct (finalizer ToLower p (wNow σ0) σ3) as [[[]|v t] σ4]; exact Hf. }
  rewrite Hfin. destruct Hbody as [Hlen Hother]. split.
  - rewrite Hlen, Hprep, length_app. cbn. lia.
  - intros q Hq. rewrite Hother by (unfold p; lia).
    rewrite Hprep. by apply lookup_app_l.
Qed.

End Properties.

(** ** Closed instances of the theorems *)

Lemma ascii_lower_idem c : ascii_lower (ascii_lower c) = ascii_lower c.
Proof. destruct c as [[] [] [] [] [] [] [] []]; reflexivity. Qed.

Lemma ascii_to_lower_idem s : ascii_to_lower (ascii_to_lower s) = ascii_to_lower s.
Proof.
  induction s as [|c s IH]; [reflexivity|].
  simpl. by rewrite ascii_lower_idem, IH.
Qed.

(** The panic scenario of the example program: both calls are made. *)
Lemma Write_runs_exactly_once_witness :
  skipped [["/ping"]] (requestFor "/panic") = false ∧
  ∃ status,
    wCalls (serve verboseOptions "/panic" [ActPanic (AnyString "oh no") "trace"])
    = wCalls (configured verboseOptions)
      ++ [CallPanic 0%nat (AnyString "oh no"); CallWrite 0%nat status].
Proof.
  split; [reflexivity|].
  destruct (Write_runs_exactly_once ascii_to_lower (loggerOf verboseOptions)
              [["/ping"]] [ActPanic (AnyString "oh no") "trace"]
              (requestFor "/panic") (configured verboseOptions) eq_refl)
    as (status & _ & _ & Hpanic).
  exists status.
  destruct (Hpanic [] (AnyString "oh no") "trace" [] eq_refl
              (List.Forall_nil quiet)) as [_ Hother].
  destruct Hother as [Hcalls _]; [discriminate|]. exact Hcalls.
Defined.

(** C1, refuted as stated: in the panic scenario the calls are one [Panic]
    and then one [Write], not one or the other. *)
Lemma finalization_both_counterexample :
  wCalls (serve verboseOptions "/panic" [ActPanic (AnyString "oh no") "trace"])
  = [CallPanic 0%nat (AnyString "oh no"); CallWrite 0%nat 500] ∧
  ¬ eitherOr
      (wCalls (serve verboseOptions "/panic" [ActPanic (AnyString "oh no") "trace"])).
Proof.
  assert (Hcalls :
    wCalls (serve verboseOptions "/panic" [ActPanic (AnyString "oh no") "trace"])
    = [CallPanic 0%nat (AnyString "oh no"); CallWrite 0%nat 500])
    by (vm_compute; reflexivity).
  split; [exact Hcalls|]. rewrite Hcalls.
  intros [(p & status & H)|(p & v & H)]; discriminate H.
Qed.

Lemma Write_suppresses_info_witness :
  statusLevel 200 = slog.LevelInfo ∧
  wStdout (exec (Write ascii_to_lower 0%nat 200 11 [] 1000 (AnyBytes ""))
             worldWithEntry)
  = wStdout worldWithEntry.
Proof.
  split; [reflexivity|].
  apply (proj1 (Write_suppresses_info ascii_to_lower 0%nat 200 11 [] 1000
                  (AnyBytes "") worldWithEntry)).
  reflexivity.
Defined.

Lemma classifier_table_witness :
  400 <= 404 < 500 ∧
  statusLevel 404 = slog.LevelWarn ∧ statusLabel 404 = "Client Error".
Proof.
  split; [lia|].
  apply (proj1 (proj2 (proj2 (classifier_table 404)))). lia.
Defined.

(** The scenario of the spec: [Set-Cookie: abc=123] is rendered as the
    mask with an empty redaction list. *)
Lemma headerLogField_redacts_witness :
  ("Set-Cookie", ["abc=123"]) ∈ cookieHeader ∧
  headerLogField ascii_to_lower [] cookieHeader !! "set-cookie" = Some "***".
Proof.
  split; [by left|].
  apply (proj1 (proj2 (proj2 (proj2
           (headerLogField_redacts ascii_to_lower [] cookieHeader))))
           "Set-Cookie" ["abc=123"]).
  - by left.
  - discriminate.
  - right; right; left. reflexivity.
Defined.

Lemma headerLogField_idempotent_witness :
  headerLogField ascii_to_lower []
    [("accept", ["[text/html], [text/plain]"]); ("set-cookie", ["***"])]
  = headerLogField ascii_to_lower [] cookieHeader.
Proof.
  apply (headerLogField_idempotent ascii_to_lower [] cookieHeader).
  - exact ascii_to_lower_idem.
  - vm_compute. apply perm_swap.
Defined.

(** The scenario of the spec: a request to [/ping] with skip list
    [["/ping"]] goes straight to the downstream handler. *)
Lemma Handler_skips_witness :
  skipped [["/ping"]] (requestFor "/ping") = true ∧
  exec (Handler ascii_to_lower (loggerOf verboseOptions) [["/ping"]]
          (λ _ _, ret tt) WRaw (requestFor "/ping"))
       (configured verboseOptions)
  = configured verboseOptions.
Proof.
  split; [reflexivity|].
  apply (proj2 (Handler_skips ascii_to_lower (loggerOf verboseOptions)
                  [["/ping"]] (λ _ _, ret tt) WRaw (requestFor "/ping"))).
  reflexivity.
Defined.

Lemma concise_suppresses_witness :
  Concise (wOptions (configured exampleOptions)) = true ∧
  wStdout (exec (NewLogEntry ascii_to_lower (loggerOf exampleOptions)
                   (requestFor "/"))
             (configured exampleOptions))
  = wStdout (configured exampleOptions).
Proof.
  split; [reflexivity|].
  apply (concise_suppresses ascii_to_lower (loggerOf exampleOptions)
           (requestFor "/") 0%nat 500 0 cookieHeader 0 (AnyBytes "")
           (configured exampleOptions)).
  reflexivity.
Defined.

Lemma Panic_annotates_witness :
  wEntries worldWithEntry !! 0%nat = Some (mkEntry (slog.New slog.LevelInfo) "") ∧
  wStderr (exec (Panic 0%nat (AnyString "oh no") "trace") worldWithEntry)
  = wStderr worldWithEntry ++ [AnyString "oh no"].
Proof.
  split; [reflexivity|].
  apply (Panic_annotates ascii_to_lower 0%nat
           (mkEntry (slog.New slog.LevelInfo) "") (AnyString "oh no") "trace"
           worldWithEntry).
  reflexivity.
Defined.

(** C8, refuted as stated: a panic whose value formats to the empty string
    leaves the message of the end record without any suffix, and a panic
    after a successful write leaves no end record at all. *)
Lemma Panic_message_counterexample :
  messages (serve verboseOptions "/panic" [ActPanic (AnyString "") "trace"])
  = ["Request: GET /panic"; "Response: 500 Server Error"] ∧
  (panicMessage 500 (AnyString "")
   ∉ messages (serve verboseOptions "/panic" [ActPanic (AnyString "") "trace"])) ∧
  messages (serve verboseOptions "/"
              [ActWrite "hello world"; ActPanic (AnyString "oh no") "trace"])
  = ["Request: GET /"] ∧
  (panicMessage 200 (AnyString "oh no")
   ∉ messages (serve verboseOptions "/"
                 [ActWrite "hello world"; ActPanic (AnyString "oh no") "trace"])).
Proof.
  assert (H1 :
    messages (serve verboseOptions "/panic" [ActPanic (AnyString "") "trace"])
    = ["Request: GET /panic"; "Response: 500 Server Error"])
    by (vm_compute; reflexivity).
  assert (H2 :
    messages (serve verboseOptions "/"
                [ActWrite "hello world"; ActPanic (AnyString "oh no") "trace"])
    = ["Request: GET /"])
    by (vm_compute; reflexivity).
  rewrite H1, H2. split_and!; try reflexivity.
  - intros Hin. apply list_elem_of_In in Hin. vm_compute in Hin.
    destruct Hin as [Hin|[Hin|[]]]; discriminate Hin.
  - intros Hin. apply list_elem_of_In in Hin. vm_compute in Hin.
    destruct Hin as [Hin|[]]; discriminate Hin.
Qed.

Lemma LogEntry_total_witness :
  (∀ p, ctxValue [(LogEntryCtxKey, CtxEntry (Some 0%nat))] LogEntryCtxKey
        = Some (CtxEntry (Some p)) →
        is_Some (wEntries worldWithEntry !! p)) ∧
  outcome (LogEntry [(LogEntryCtxKey, CtxEntry (Some 0%nat))]) worldWithEntry
  = Ret (slog.New slog.LevelInfo).
Proof.
  assert (Hwf : ∀ p,
    ctxValue [(LogEntryCtxKey, CtxEntry (Some 0%nat))] LogEntryCtxKey
    = Some (CtxEntry (Some p)) →
    is_Some (wEntries worldWithEntry !! p)).
  { intros p Hp. vm_compute in Hp. inversion Hp; subst p. by eexists. }
  split; [exact Hwf|].
  apply (proj1 (proj2 (proj2 (LogEntry_total
                                [(LogEntryCtxKey, CtxEntry (Some 0%nat))]
                                worldWithEntry Hwf)))
           0%nat (mkEntry (slog.New slog.LevelInfo) "")); reflexivity.
Defined.

(** The caller's array after [Configure]: the two cells in the window are
    lower-cased, the third is untouched. *)
Lemma Configure_lowers_in_place_witness :
  sliceOk (wArrays worldWithNames) (SkipHeaders redactingOptions) ∧
  sliceElems (wArrays (exec (Configure ascii_to_lower redactingOptions) worldWithNames))
    (SkipHeaders redactingOptions)
  = (ascii_to_lower
       <$> sliceElems (wArrays worldWithNames) (SkipHeaders redactingOptions)).
Proof.
  assert (Hok : sliceOk (wArrays worldWithNames) (SkipHeaders redactingOptions)).
  { exists ["Authorization"; "X-Api-Key"; "Other"]. split; [reflexivity|]. simpl. lia. }
  split; [exact Hok|].
  apply (Configure_lowers_in_place ascii_to_lower redactingOptions worldWithNames Hok).
Defined.

(** ** The scenarios of the example program *)

Example configure_shares_the_array :
  wArrays (exec (Configure ascii_to_lower redactingOptions) worldWithNames)
  = [["authorization"; "x-api-key"; "Other"]] ∧
  skipList (exec (Configure ascii_to_lower redactingOptions) worldWithNames)
  = ["authorization"; "x-api-key"] ∧
  slog.handlerLevel (wDefault (exec (Configure ascii_to_lower redactingOptions)
                                 worldWithNames))
  = slog.LevelWarn.
Proof. vm_compute. by split_and!. Qed.

Example ping_is_skipped :
  let σ := serve verboseOptions "/ping" [ActWrite "."] in
  wStdout σ = [] ∧ wEntries σ = [] ∧ wWrap σ = None ∧ wCalls σ = [] ∧
  wRaw σ = mkRaw [] (Some 200) ".".
Proof. vm_compute. by split_and!. Qed.

Example skip_is_exact_match :
  skipped [["/ping"]] (requestFor "/Ping") = false ∧
  skipped [["/ping"]] (requestFor "/ping/") = false ∧
  skipped [[]; ["/ping"]] (requestFor "/ping") = false.
Proof. vm_compute. by split_and!. Qed.

Example concise_ok_emits_nothing :
  wStdout (serve exampleOptions "/" [ActWrite "hello world"]) = [].
Proof. vm_compute. reflexivity. Qed.

Example warn_scenario :
  (λ rec, (slog.recLevel rec, slog.recMsg rec))
    <$> wStdout (serve verboseOptions "/warn"
                   [ActLog slog.LevelWarn "warn here"; ActWriteHeader 400;
                    ActWrite "warn here"])
  = [(slog.LevelInfo, "Request: GET /warn"); (slog.LevelWarn, "warn here");
     (slog.LevelWarn, "Response: 400 Client Error")].
Proof. vm_compute. reflexivity. Qed.

Example panic_scenario :
  messages (serve verboseOptions "/panic" [ActPanic (AnyString "oh no") "trace"])
  = ["Request: GET /panic"; "Response: 500 Server Error - oh no"] ∧
  wStderr (serve verboseOptions "/panic" [ActPanic (AnyString "oh no") "trace"])
  = [AnyString "oh no"].
Proof. vm_compute. by split. Qed.

(** ** Closed instances of the further properties *)

Lemma headerLogField_last_wins_witness :
  ["b"] ≠ ([] : list string) ∧
  headerLogField ascii_to_lower [] ([("Foo", ["a"])] ++ [("foo", ["b"])]) !! "foo"
  = Some "b".
Proof.
  split; [discriminate|].
  exact (headerLogField_last_wins ascii_to_lower [] [("Foo", ["a"])] "foo" ["b"]
           ltac:(discriminate)).
Defined.

Lemma headerLogField_order_independent_witness :
  cookieHeader
  ≡ₚ [("Accept", ["text/html"; "text/plain"]); ("Set-Cookie", ["abc=123"]);
      ("X-Empty", [])] ∧
  headerLogField ascii_to_lower [] cookieHeader
  = headerLogField ascii_to_lower []
      [("Accept", ["text/html"; "text/plain"]); ("Set-Cookie", ["abc=123"]);
       ("X-Empty", [])].
Proof.
  split; [apply perm_swap|].
  apply headerLogField_order_independent; [apply perm_swap|].
  intros k1 v1 k2 v2 H1 H2 _ _ Hk.
  apply list_elem_of_In in H1, H2. simpl in H1, H2.
  destruct H1 as [H1|[H1|[H1|[]]]]; destruct H2 as [H2|[H2|[H2|[]]]];
    inversion H1; inversion H2; subst; try reflexivity;
    vm_compute in Hk; discriminate Hk.
Defined.

Lemma unlowered_skip_masks_nothing_witness :
  ascii_to_lower "X-Api-Key" ≠ "X-Api-Key" ∧
  headerLogField ascii_to_lower ["X-Api-Key"] [("X-Api-Key", ["secret"])]
  = headerLogField ascii_to_lower [] [("X-Api-Key", ["secret"])].
Proof.
  assert (Hne : ascii_to_lower "X-Api-Key" ≠ "X-Api-Key") by discriminate.
  split; [exact Hne|].
  exact (unlowered_skip_masks_nothing ascii_to_lower "X-Api-Key" []
           [("X-Api-Key", ["secret"])] ascii_to_lower_idem Hne).
Defined.

Lemma configured_name_is_masked_witness :
  sliceOk (wArrays worldWithNames) (SkipHeaders redactingOptions) ∧
  headerLogField ascii_to_lower
    (skipList (exec (Configure ascii_to_lower redactingOptions) worldWithNames))
    [("x-API-key", ["secret"])] !! "x-api-key"
  = Some "***".
Proof.
  assert (Hok : sliceOk (wArrays worldWithNames) (SkipHeaders redactingOptions)).
  { exists ["Authorization"; "X-Api-Key"; "Other"]. split; [reflexivity|]. simpl. lia. }
  split; [exact Hok|].
  apply (configured_name_is_masked ascii_to_lower redactingOptions worldWithNames
           "X-Api-Key" [("x-API-key", ["secret"])] "x-API-key" ["secret"] Hok).
  - right. left.
  - left.
  - discriminate.
  - reflexivity.
Defined.

Lemma NewLogger_without_options_witness :
  sliceOk (wArrays worldWithNames) (SkipHeaders redactingOptions) ∧
  exec (NewLogger ascii_to_lower "second" [])
    (exec (NewLogger ascii_to_lower "first" [redactingOptions]) worldWithNames)
  = exec (NewLogger ascii_to_lower "first" [redactingOptions]) worldWithNames.
Proof.
  assert (Hok : sliceOk (wArrays worldWithNames) (SkipHeaders redactingOptions)).
  { exists ["Authorization"; "X-Api-Key"; "Other"]. split; [reflexivity|]. simpl. lia. }
  split; [exact Hok|].
  apply (NewLogger_without_options ascii_to_lower "first" "second" redactingOptions
           [] worldWithNames ascii_to_lower_idem Hok).
Defined.


Lemma request_header_masked_witness :
  isMasked [] (ascii_to_lower "Authorization") = true ∧
  ∃ m, requestLogFields ascii_to_lower [] authRequest false !! "header"
       = Some (slog.FStrMap m) ∧
       m !! "authorization" = Some "***".
Proof.
  split; [reflexivity|].
  apply (request_header_masked ascii_to_lower [] authRequest "Authorization"
           ["Bearer abc"]).
  - left.
  - discriminate.
  - reflexivity.
Defined.

Lemma responseLog_fields_witness :
  is_Some (responseLog ascii_to_lower false [] 404 9 [] 1000 (AnyString "x")
             !! "body") ∧
  ("body" = "status" ∨ "body" = "bytes" ∨ "body" = "elapsed" ∨ "body" = "body"
   ∨ "body" = "header").
Proof.
  assert (Hb : is_Some (responseLog ascii_to_lower false [] 404 9 [] 1000
                          (AnyString "x") !! "body")) by (by eexists).
  split; [exact Hb|].
  exact (proj2 (proj2 (proj2 (proj2 (proj2
           (responseLog_fields ascii_to_lower false [] 404 9 [] 1000
              (AnyString "x")))))) "body" Hb).
Defined.

Lemma Write_again_witness :
  wEntries worldWithEntry !! 0%nat = Some (mkEntry (slog.New slog.LevelInfo) "") ∧
  wEntries (exec (Write ascii_to_lower 0%nat 500 0 [] 0 (AnyBytes "oops"))
              worldWithEntry)
  = wEntries worldWithEntry.
Proof.
  split; [reflexivity|].
  apply (Write_again ascii_to_lower 0%nat (mkEntry (slog.New slog.LevelInfo) "")
           500 0 [] 0 (AnyBytes "oops") worldWithEntry).
  reflexivity.
Defined.

Lemma LogEntrySetField_then_LogEntry_witness :
  carriesCtx entryCtx 0%nat ∧
  outcome (LogEntry entryCtx)
    (exec (LogEntrySetField entryCtx "user" "alice") worldWithEntry)
  = Ret (slog.With (slog.New slog.LevelInfo) "user"
           (slog.VLeaf (slog.FStr "alice"))).
Proof.
  split; [reflexivity|].
  apply (LogEntrySetField_then_LogEntry entryCtx 0%nat
           (mkEntry (slog.New slog.LevelInfo) "") "user" "alice" worldWithEntry);
    reflexivity.
Defined.

Lemma LogEntrySetField_without_entry_witness :
  (∀ p, ctxValue [] LogEntryCtxKey ≠ Some (CtxEntry p)) ∧
  LogEntrySetField [] "user" "alice" worldWithEntry = (Ret tt, worldWithEntry).
Proof.
  assert (Hno : ∀ p, ctxValue [] LogEntryCtxKey ≠ Some (CtxEntry p))
    by (intros p; discriminate).
  split; [exact Hno|].
  exact (proj1 (LogEntrySetField_without_entry [] "user" "alice" worldWithEntry) Hno).
Defined.

Lemma LogEntrySetFields_single_attribute_witness :
  carriesCtx entryCtx 0%nat ∧
  outcome (LogEntrySetFields entryCtx {["user" := slog.FStr "alice"]})
    worldWithEntry
  = Ret tt.
Proof.
  split; [reflexivity|].
  apply (LogEntrySetFields_single_attribute entryCtx 0%nat
           (mkEntry (slog.New slog.LevelInfo) "")
           {["user" := slog.FStr "alice"]} worldWithEntry); reflexivity.
Defined.

Lemma set_field_reaches_end_record_witness :
  statusLevel 500 ≠ slog.LevelInfo ∧
  ((λ rec, (slog.recAttrs rec).*1)
     <$> wStdout (exec (Write ascii_to_lower 0%nat 500 0 [] 0 (AnyBytes "oops"))
                    (exec (LogEntrySetField entryCtx "user" "alice")
                       worldWithEntry)))
  = [["user"; "httpResponse"]].
Proof.
  split; [discriminate|].
  rewrite (set_field_reaches_end_record ascii_to_lower entryCtx 0%nat
             (mkEntry (slog.New slog.LevelInfo) "") "user" "alice" 500 0 [] 0
             (AnyBytes "oops") worldWithEntry);
    [reflexivity|reflexivity|reflexivity|discriminate|discriminate].
Defined.

Lemma downstream_sees_entry_witness :
  skipped [["/ping"]] authRequest = false ∧
  ∃ r' σp fin,
    Handler ascii_to_lower (loggerOf verboseOptions) [["/ping"]]
      (runScript [ActLog slog.LevelInfo "hello"]) WRaw authRequest
      (configured verboseOptions)
    = defer (runScript [ActLog slog.LevelInfo "hello"] WWrap r') fin σp.
Proof.
  split; [reflexivity|].
  destruct (downstream_sees_entry ascii_to_lower (loggerOf verboseOptions)
              [["/ping"]] (runScript [ActLog slog.LevelInfo "hello"]) WRaw
              authRequest (configured verboseOptions) eq_refl)
    as (r' & σp & fin & Hrun & _).
  by exists r', σp, fin.
Defined.

Lemma skipped_request_is_not_logged_witness :
  skipped [["/ping"]] (requestFor "/ping") = true ∧
  noEntry (requestFor "/ping") ∧
  wStderr (exec (RequestLogger ascii_to_lower (loggerOf verboseOptions) [["/ping"]]
                   (runScript [ActPanic (AnyString "oh no") "trace"]) WRaw
                   (requestFor "/ping"))
             (configured verboseOptions))
  = wStderr (configured verboseOptions) ++ [AnyString "oh no"].
Proof.
  assert (Hno : noEntry (requestFor "/ping")) by (intros p; discriminate).
  split; [reflexivity|]. split; [exact Hno|].
  destruct (skipped_request_is_not_logged ascii_to_lower (loggerOf verboseOptions)
              [["/ping"]] [ActPanic (AnyString "oh no") "trace"]
              (requestFor "/ping") (configured verboseOptions) eq_refl Hno)
    as (_ & _ & Hpanic).
  destruct (Hpanic [] (AnyString "oh no") "trace" [] eq_refl
              (List.Forall_nil quiet)) as [Herr _]; [discriminate|].
  exact Herr.
Defined.

Lemma earlier_entries_untouched_witness :
  skipped [["/ping"]] authRequest = false ∧
  wEntries (exec (RequestLogger ascii_to_lower (loggerOf verboseOptions) [["/ping"]]
                    (runScript [ActSetField "user" "alice"]) WRaw authRequest)
              worldWithEntry) !! 0%nat
  = wEntries worldWithEntry !! 0%nat.
Proof.
  split; [reflexivity|].
  apply (earlier_entries_untouched ascii_to_lower (loggerOf verboseOptions)
           [["/ping"]] [ActSetField "user" "alice"] authRequest worldWithEntry
           eq_refl).
  simpl. lia.
Defined.
